(** * alumni_interactive_website: the authentication controller and the
      session-list categorisation, embedded in Rocq.

    Sources embedded here:
    - [server/controllers/authController.js]: [signToken], [signup],
      [verifyEmail], [forgotPassword], [resetPassword], [login],
      [googleCallback], [protect], [restrictTo];
    - the [Sessions] page component: the [forEach] loop of [fetchSessions]
      that sorts the fetched sessions into three buckets.

    Handlers are [async] functions whose whole body sits in a [try]/[catch];
    they are embedded in a state-and-exception monad over the credential
    store, so that a rejected [await] is a [Throw] and the [catch] block is a
    handler of it. *)

From Stdlib Require Import String Ascii List ZArith NArith Bool Lia Permutation.
Import ListNotations.
Local Open Scope string_scope.
Local Open Scope Z_scope.

Set Implicit Arguments.
Local Set Warnings "-register-all".

(* ------------------------------------------------------------------ *)
(** * JavaScript values used by the controller *)

(** A property that may be [undefined] is an [option]; [!x] on such a
    string property is true for [undefined] and for the empty string. *)
Definition falsy (x : option string) : bool :=
  match x with
  | None => true
  | Some s => String.eqb s ""
  end.

(** [s.startsWith(p)] *)
Definition startsWith (s p : string) : bool := String.prefix p s.

(** [s.split(sep)] for a one-character separator. *)
Fixpoint split (sep : ascii) (s : string) : list string :=
  match s with
  | EmptyString => [EmptyString]
  | String c rest =>
      if Ascii.eqb c sep then EmptyString :: split sep rest
      else match split sep rest with
           | [] => [String c EmptyString]
           | h :: t => String c h :: t
           end
  end.

(** [roles.includes(r)]: an [undefined] role is in no list of strings. *)
Definition includes (roles : list string) (r : option string) : bool :=
  match r with
  | None => false
  | Some s => existsb (String.eqb s) roles
  end.

(** The value of a thrown [Error] is its [message]. *)
Definition JsError := string.

(* ------------------------------------------------------------------ *)
(** * JSON bodies and responses *)

Inductive Json : Type :=
| JBool (b : bool)
| JNum (n : Z)
| JStr (s : string)
| JObj (fields : list (string * Json)).

(** An object literal: a property whose value is [undefined] is dropped
    when [res.json] serialises the object. *)
Definition prop (k : string) (v : option Json) : list (string * Json) :=
  match v with
  | None => []
  | Some j => [(k, j)]
  end.

Definition str (k : string) (v : option string) : list (string * Json) :=
  prop k (option_map JStr v).

(** Every property name of a JSON value, at any depth. *)
Fixpoint keys (j : Json) : list string :=
  match j with
  | JObj fields =>
      (fix go (l : list (string * Json)) : list string :=
         match l with
         | [] => []
         | (k, v) :: l' => k :: (keys v ++ go l')%list
         end) fields
  | _ => []
  end.

Definition lookup (k : string) (j : Json) : option Json :=
  match j with
  | JObj fields =>
      option_map snd (find (fun kv => String.eqb (fst kv) k) fields)
  | _ => None
  end.

(** [res.status(code).json(body)] *)
Record Response : Type := mkResponse { statusCode : Z; body : Json }.

Definition error_body (msg : string) : Json :=
  JObj [("status", JStr "error"); ("message", JStr msg)].

Definition success_body (msg : string) : Json :=
  JObj [("status", JStr "success"); ("message", JStr msg)].

(** The error kinds of the specification, as the responses the controller
    sends for them. *)
Definition DuplicateIdentityError : Response :=
  mkResponse 400 (error_body "Email already registered").
Definition MissingCredentialsError : Response :=
  mkResponse 400 (error_body "Please provide email and password").
Definition InvalidCredentialsError : Response :=
  mkResponse 401 (error_body "Incorrect email or password").
Definition IdentityNotFoundError : Response :=
  mkResponse 404 (error_body "No user found with that email address").
Definition InvalidOrExpiredTokenError : Response :=
  mkResponse 400 (error_body "Invalid or expired reset token").
Definition UnauthenticatedError : Response :=
  mkResponse 401
    (error_body "You are not logged in! Please log in to get access.").
Definition InvalidTokenError : Response :=
  mkResponse 401 (error_body "Invalid token").
Definition StaleIdentityError : Response :=
  mkResponse 401
    (error_body "The user belonging to this token no longer exists.").
Definition ForbiddenError : Response :=
  mkResponse 403
    (error_body "You do not have permission to perform this action").

(** The standard envelope [{ status, message?, token?, data? }]: an object
    with a [status] of ["success"] or ["error"] and no property outside
    the four. *)
Definition envelope_key (k : string) : bool :=
  String.eqb k "status" || String.eqb k "message" ||
  String.eqb k "token" || String.eqb k "data".

Definition is_envelope (j : Json) : bool :=
  match j with
  | JObj fields =>
      forallb (fun kv => envelope_key (fst kv)) fields &&
      match lookup "status" j with
      | Some (JStr s) => String.eqb s "success" || String.eqb s "error"
      | _ => false
      end
  | _ => false
  end.

(* ------------------------------------------------------------------ *)
(** * Results of fallible calls *)

Inductive Result (A : Type) : Type :=
| Ok (a : A)
| Throw (e : JsError).
Arguments Ok {A} a.
Arguments Throw {A} e.

(* ------------------------------------------------------------------ *)
(** * Data model *)

(** An [ObjectId] is a 96-bit number; JSON shows it in hexadecimal, here it
    is shown as the number. *)
Definition Oid := N.

(** Identity records: the documents of the [User] collection, with the
    paths the controller reads and writes.  An absent path is [None]. *)
Module User.
Record t : Type := mk {
  _id : Oid;
  googleId : option string;
  fullName : option string;
  email : option string;
  password : option string;
  role : option string;
  department : option string;
  yearOfStudy : option string;
  studentId : option string;
  profileImage : option string;
  isEmailVerified : bool;
  emailVerificationToken : option string;
  emailVerificationExpires : option Z;
  passwordResetToken : option string;
  passwordResetExpires : option Z
}.

Definition with_id (i : Oid) (u : t) : t :=
  mk i (googleId u) (fullName u) (email u) (password u) (role u)
     (department u) (yearOfStudy u) (studentId u) (profileImage u)
     (isEmailVerified u) (emailVerificationToken u)
     (emailVerificationExpires u) (passwordResetToken u)
     (passwordResetExpires u).

Definition with_password (p : option string) (u : t) : t :=
  mk (_id u) (googleId u) (fullName u) (email u) p (role u)
     (department u) (yearOfStudy u) (studentId u) (profileImage u)
     (isEmailVerified u) (emailVerificationToken u)
     (emailVerificationExpires u) (passwordResetToken u)
     (passwordResetExpires u).

Definition with_reset_ticket (tok : option string) (expires : option Z)
    (u : t) : t :=
  mk (_id u) (googleId u) (fullName u) (email u) (password u) (role u)
     (department u) (yearOfStudy u) (studentId u) (profileImage u)
     (isEmailVerified u) (emailVerificationToken u)
     (emailVerificationExpires u) tok expires.

Definition with_verification (flag : bool) (tok : option string)
    (expires : option Z) (u : t) : t :=
  mk (_id u) (googleId u) (fullName u) (email u) (password u) (role u)
     (department u) (yearOfStudy u) (studentId u) (profileImage u)
     flag tok expires (passwordResetToken u) (passwordResetExpires u).
End User.

(** [req.body] of the JSON routes; every property is a string or absent. *)
Module Body.
Record t : Type := mk {
  fullName : option string;
  email : option string;
  password : option string;
  role : option string;
  department : option string;
  yearOfStudy : option string;
  studentId : option string
}.

Definition with_password (p : option string) (b : t) : t :=
  mk (fullName b) (email b) p (role b) (department b) (yearOfStudy b)
     (studentId b).
End Body.

(** The parts of an Express request the controller reads: the
    [Authorization] header, the [:token] route parameter, the parsed body
    ([None] when no body was parsed) and [req.user], which [protect] sets. *)
Module Req.
Record t : Type := mk {
  authorization : option string;
  token : string;
  body : option Body.t;
  user : option User.t
}.

Definition with_user (u : User.t) (r : t) : t :=
  mk (authorization r) (token r) (body r) (Some u).
End Req.

(** What a handler does with a request: it sends a response, hands the
    request to the next handler, or redirects. *)
Inductive Outcome : Type :=
| Sent (r : Response)
| Next (req : Req.t)
| Redirect (url : string).

(** The credential store: the documents in insertion order, and the id the
    next inserted document gets. *)
Record Store : Type := mkStore { docs : list User.t; nextOid : Oid }.

(** The payload of a bearer token: [{ id, iat, exp }], times in seconds. *)
Module Payload.
Record t : Type := mk {
  id : option Oid;
  iat : Z;
  exp : option Z
}.
End Payload.

(** The calls on the store that can reject. *)
Inductive DbOp : Type := FindOne | FindById | Create | Save.

(** The collaborators of the controller that are not part of it: the
    process environment, the [jsonwebtoken] and [crypto] libraries, the
    [User] model's schema and methods, the database connection and the
    email service.  The controller is verified for every choice of them. *)
Record Env : Type := mkEnv {
  (* process.env; JWT_EXPIRE is the lifetime it denotes, in seconds *)
  JWT_SECRET : option string;
  JWT_EXPIRE : option Z;
  FRONTEND_URL : string;
  (* jsonwebtoken: the signature of a payload under a secret, and the
     compact serialisation of a signed payload with its parser *)
  hmac : string -> Payload.t -> string;
  jwt_encode : Payload.t * string -> string;
  jwt_decode : string -> option (Payload.t * string);
  jwt_decode_encode : forall t, jwt_decode (jwt_encode t) = Some t;
  (* crypto: SHA-256 in hex, and the random bytes drawn at a given time *)
  sha256hex : string -> string;
  randomBytes : Z -> string;
  (* models/User.js: schema validation (the message of the validation
     error, if any), the hash of the save path, password comparison, and
     the lifetime of a reset ticket in milliseconds *)
  validate : User.t -> option JsError;
  bcrypt_hash : string -> string;
  comparePassword : User.t -> option string -> Result bool;
  resetTicketTtl : Z;
  (* the database connection: the error a call rejects with, if any *)
  db_fault : DbOp -> option JsError;
  (* utils/emailService.js *)
  sendPasswordResetEmail : option string -> string -> Result unit
}.

(* ------------------------------------------------------------------ *)
(** * The monad of handlers: state of the store, and exceptions *)

Definition M (A : Type) : Type := Store -> Store * Result A.

Definition ret {A} (a : A) : M A := fun s => (s, Ok a).

Definition throw {A} (e : JsError) : M A := fun s => (s, Throw e).

Definition bind {A B} (m : M A) (k : A -> M B) : M B :=
  fun s =>
    match m s with
    | (s', Ok a) => k a s'
    | (s', Throw e) => (s', Throw e)
    end.

(** [try { body } catch (error) { handler }]: what the body wrote to the
    store before it threw stays written. *)
Definition try_catch {A} (body : M A) (handler : JsError -> M A) : M A :=
  fun s =>
    match body s with
    | (s', Ok a) => (s', Ok a)
    | (s', Throw e) => handler e s'
    end.

(** A call that does not touch the store. *)
Definition lift {A} (r : Result A) : M A := fun s => (s, r).

Notation "x <- m ;; k" := (bind m (fun x => k))
  (at level 61, m at next level, right associativity).
Notation "m ;;; k" := (bind m (fun _ => k))
  (at level 61, right associativity).

(** [res.status(code).json(body)] as the last act of a handler. *)
Definition respond (code : Z) (b : Json) : M Outcome :=
  ret (Sent (mkResponse code b)).

(* ------------------------------------------------------------------ *)
(** * The collaborators, as the controller calls them *)

Section Controller.

Variable E : Env.

(** ** jsonwebtoken *)

(** The double quote character, code 34. *)
Definition double_quote : string :=
  String (Ascii.Ascii false true false false false true false false)
    EmptyString.

(** Modelled from the spec: [jwt.sign] and [jwt.verify] of the
    [jsonwebtoken] library, which is not part of the repository.  The
    token embeds the payload and a fixed time-to-live taken from
    configuration and is signed with the server secret; verification checks
    signature and expiry and fails if the token is malformed, the signature
    does not match, or the token has expired ([exp] reached).  Both throw
    when the secret is not configured, and [sign] throws when the lifetime
    is not. [now] is [Date.now()], in milliseconds. *)
Definition jwt_sign (i : option Oid) (secret : option string)
    (expiresIn : option Z) (now : Z) : Result string :=
  match secret with
  | None => Throw "secretOrPrivateKey must have a value"
  | Some key =>
      if String.eqb key "" then Throw "secretOrPrivateKey must have a value"
      else match expiresIn with
           | None =>
               Throw (double_quote ++ "expiresIn" ++ double_quote
                      ++ " should be a number of seconds or string representing a timespan")
           | Some ttl =>
               let issued := now / 1000 in
               let p := Payload.mk i issued (Some (issued + ttl)) in
               Ok (jwt_encode E (p, hmac E key p))
           end
  end.

(** Modelled from the spec: [jwt.verify] of [jsonwebtoken], as described
    at [jwt_sign]; the token is expired once the clock, in whole seconds,
    has reached [exp]. *)
Definition jwt_verify (token : string) (secret : option string) (now : Z)
    : Result Payload.t :=
  match jwt_decode E token with
  | None => Throw "jwt malformed"
  | Some (p, signature) =>
      match secret with
      | None => Throw "secret or public key must be provided"
      | Some key =>
          if String.eqb key "" then
            Throw "secret or public key must be provided"
          else if negb (String.eqb signature (hmac E key p)) then
            Throw "invalid signature"
          else match Payload.exp p with
               | Some e =>
                   if e <=? now / 1000 then Throw "jwt expired" else Ok p
               | None => Ok p
               end
      end
  end.

(** ** models/User.js *)

(** The [User] model of [models/User.js] is not among the sources; its
    calls are modelled from the spec.  The store holds one record per
    identity; a query returns the first document that matches, in
    insertion order; [create] validates the document, hashes the password
    on the save path and inserts it under a fresh id; [save] validates the
    document, hashes the password when it was assigned, and replaces the
    stored document of the same id.  Every call rejects when the
    connection does. *)

(** Modelled from the spec: a call on the credential store can throw; it
    does when the connection rejects it. *)
Definition db (op : DbOp) : M unit :=
  fun s =>
    match db_fault E op with
    | Some e => (s, Throw e)
    | None => (s, Ok tt)
    end.

(** Modelled from the spec: the hashing of the password on the save path
    of [models/User.js]. *)
Definition hash_password (u : User.t) : User.t :=
  User.with_password (option_map (bcrypt_hash E) (User.password u)) u.

(** Modelled from the spec: [User.findOne(query)]. *)
Definition User_findOne (query : User.t -> bool) : M (option User.t) :=
  db FindOne ;;; fun s => (s, Ok (find query (docs s))).

(** The document of a given id, if there is one. *)
Definition document (s : Store) (i : option Oid) : option User.t :=
  match i with
  | None => None
  | Some n => find (fun u => N.eqb (User._id u) n) (docs s)
  end.

(** Modelled from the spec: [User.findById(id)]. *)
Definition User_findById (i : option Oid) : M (option User.t) :=
  db FindById ;;; fun s => (s, Ok (document s i)).

(** Modelled from the spec: [User.create(fields)].  A document is
    accepted when the connection and [validate] accept it; whether the
    schema also refuses a document whose email is already stored is not
    in the sources, and no statement below relies on such a document
    being accepted. *)
Definition User_create (fields : User.t) : M User.t :=
  db Create ;;;
  fun s =>
    match validate E fields with
    | Some e => (s, Throw e)
    | None =>
        let doc := User.with_id (nextOid s) (hash_password fields) in
        (mkStore (docs s ++ [doc]) (N.succ (nextOid s)), Ok doc)
    end.

(** Modelled from the spec: [user.save()], for a document [u] loaded
    from the store and assigned to since. *)
Definition user_save (u : User.t) (passwordModified : bool) : M unit :=
  db Save ;;;
  fun s =>
    match validate E u with
    | Some e => (s, Throw e)
    | None =>
        let stored := if passwordModified then hash_password u else u in
        (mkStore
           (map (fun v => if N.eqb (User._id v) (User._id u)
                          then stored else v) (docs s))
           (nextOid s), Ok tt)
    end.

(** Modelled from the spec: [user.generatePasswordResetToken()] of
    [models/User.js]: draws a random token, stores only its one-way hash
    plus an expiry on the document, and returns the token itself. *)
Definition user_generatePasswordResetToken (now : Z) (u : User.t)
    : string * User.t :=
  let resetToken := randomBytes E now in
  (resetToken,
   User.with_reset_ticket (Some (sha256hex E resetToken))
     (Some (now + resetTicketTtl E)) u).

(** The query documents of the controller. *)
Definition option_eqb (a b : option string) : bool :=
  match a, b with
  | Some x, Some y => String.eqb x y
  | None, None => true
  | _, _ => false
  end.

(** [{ email }] *)
Definition by_email (e : option string) (u : User.t) : bool :=
  option_eqb (User.email u) e.

(** [{ passwordResetToken: hashedToken,
       passwordResetExpires: { $gt: Date.now() } }] *)
Definition by_reset_ticket (hashedToken : string) (now : Z) (u : User.t)
    : bool :=
  option_eqb (User.passwordResetToken u) (Some hashedToken) &&
  match User.passwordResetExpires u with
  | Some t => now <? t
  | None => false
  end.

(** [{ emailVerificationToken: hashedToken,
       emailVerificationExpires: { $gt: Date.now() } }] *)
Definition by_verification_ticket (hashedToken : string) (now : Z)
    (u : User.t) : bool :=
  option_eqb (User.emailVerificationToken u) (Some hashedToken) &&
  match User.emailVerificationExpires u with
  | Some t => now <? t
  | None => false
  end.

(* ------------------------------------------------------------------ *)
(** * controllers/authController.js *)

Definition signToken (now : Z) (i : option Oid) : Result string :=
  jwt_sign i (JWT_SECRET E) (JWT_EXPIRE E) now.

(** [const { first, ... } = req.body]: a [TypeError] that names the first
    property of the pattern when no body was parsed. *)
Definition destructure_body (first : string) (req : Req.t) : M Body.t :=
  match Req.body req with
  | Some b => ret b
  | None =>
      throw ("Cannot destructure property '" ++ first
             ++ "' of 'req.body' as it is undefined.")
  end.

(** The public projection of an identity in the signup response. *)
Definition signup_projection (user : User.t) : Json :=
  JObj ([("id", JNum (Z.of_N (User._id user)))]
        ++ str "fullName" (User.fullName user)
        ++ str "email" (User.email user)
        ++ str "role" (User.role user)
        ++ [("isEmailVerified", JBool (User.isEmailVerified user))])%list.

(** The document [signup] hands to [User.create]: the seven properties of
    the body and [isEmailVerified: true]; the model assigns the id. *)
Definition signup_fields (b : Body.t) : User.t :=
  User.mk 0%N None (Body.fullName b) (Body.email b) (Body.password b)
    (Body.role b) (Body.department b) (Body.yearOfStudy b)
    (Body.studentId b) None
    true (* Temporarily set to true *)
    None None None None.

Definition signup (now : Z) (req : Req.t) : M Outcome :=
  try_catch
    (b <- destructure_body "fullName" req ;;
     (* Check if user already exists *)
     existingUser <- User_findOne (by_email (Body.email b)) ;;
     match existingUser with
     | Some _ => respond 400 (error_body "Email already registered")
     | None =>
         (* Create new user *)
         user <- User_create (signup_fields b) ;;
         (* Generate token *)
         token <- lift (signToken now (Some (User._id user))) ;;
         respond 201
           (JObj [("status", JStr "success");
                  ("token", JStr token);
                  ("data", JObj [("user", signup_projection user)])])
     end)
    (fun error => respond 400 (error_body error)).

Definition verifyEmail (now : Z) (req : Req.t) : M Outcome :=
  try_catch
    (let hashedToken := sha256hex E (Req.token req) in
     user <- User_findOne (by_verification_ticket hashedToken now) ;;
     match user with
     | None => respond 400 (error_body "Invalid or expired verification token")
     | Some user =>
         user_save (User.with_verification true None None user) false ;;;
         respond 200 (success_body "Email verified successfully")
     end)
    (fun error => respond 400 (error_body error)).

Definition forgotPassword (now : Z) (req : Req.t) : M Outcome :=
  try_catch
    (b <- destructure_body "email" req ;;
     user <- User_findOne (by_email (Body.email b)) ;;
     match user with
     | None => respond 404 (error_body "No user found with that email address")
     | Some user =>
         let (resetToken, user) := user_generatePasswordResetToken now user in
         user_save user false ;;;
         lift (sendPasswordResetEmail E (Body.email b) resetToken) ;;;
         respond 200 (success_body "Password reset link sent to email")
     end)
    (fun error => respond 400 (error_body error)).

Definition resetPassword (now : Z) (req : Req.t) : M Outcome :=
  try_catch
    (let hashedToken := sha256hex E (Req.token req) in
     user <- User_findOne (by_reset_ticket hashedToken now) ;;
     match user with
     | None => respond 400 (error_body "Invalid or expired reset token")
     | Some user =>
         match Req.body req with
         | None => throw "Cannot read properties of undefined (reading 'password')"
         | Some b =>
             user_save
               (User.with_reset_ticket None None
                  (User.with_password (Body.password b) user)) true ;;;
             respond 200 (success_body "Password reset successfully")
         end
     end)
    (fun error => respond 400 (error_body error)).

(** The public projection of an identity in the login response. *)
Definition login_projection (user : User.t) : Json :=
  JObj ([("id", JNum (Z.of_N (User._id user)))]
        ++ str "fullName" (User.fullName user)
        ++ str "email" (User.email user)
        ++ str "role" (User.role user))%list.

Definition login (now : Z) (req : Req.t) : M Outcome :=
  try_catch
    (b <- destructure_body "email" req ;;
     (* Check if email and password exist *)
     if falsy (Body.email b) || falsy (Body.password b)
     then respond 400 (error_body "Please provide email and password")
     else
       (* Check if user exists && password is correct *)
       user <- User_findOne (by_email (Body.email b)) ;;
       match user with
       | None => respond 401 (error_body "Incorrect email or password")
       | Some user =>
           matches <- lift (comparePassword E user (Body.password b)) ;;
           if negb matches
           then respond 401 (error_body "Incorrect email or password")
           else
             (* Generate token *)
             token <- lift (signToken now (Some (User._id user))) ;;
             respond 200
               (JObj [("status", JStr "success");
                      ("token", JStr token);
                      ("data", JObj [("user", login_projection user)])])
       end)
    (fun error => respond 400 (error_body error)).

(** The callback [passport.authenticate] is given in [googleCallback]: it
    is called with the provider's error, or with the resolved identity
    ([false], here [None], when authentication did not succeed).  There is
    no [try]/[catch] in it. *)
Definition googleCallback (now : Z) (err : option JsError)
    (user : option User.t) : M Outcome :=
  match err with
  | Some e => respond 401 (error_body e)
  | None =>
      token <- lift (signToken now (option_map User._id user)) ;;
      (* Redirect to frontend with token *)
      ret (Redirect (FRONTEND_URL E ++ "/auth/success?token=" ++ token))
  end.

(** The bearer token of a request, as [protect] extracts it. *)
Definition bearer (req : Req.t) : option string :=
  match Req.authorization req with
  | Some h =>
      if negb (String.eqb h "") && startsWith h "Bearer"
      then nth_error (split " "%char h) 1
      else None
  | None => None
  end.

Definition protect (now : Z) (req : Req.t) : M Outcome :=
  try_catch
    ((* Get token *)
     match bearer req with
     | None =>
         respond 401 (error_body "You are not logged in! Please log in to get access.")
     | Some token =>
         if String.eqb token ""
         then respond 401 (error_body "You are not logged in! Please log in to get access.")
         else
           (* Verify token *)
           decoded <- lift (jwt_verify token (JWT_SECRET E) now) ;;
           (* Check if user still exists *)
           currentUser <- User_findById (Payload.id decoded) ;;
           match currentUser with
           | None =>
               respond 401 (error_body "The user belonging to this token no longer exists.")
           | Some currentUser =>
               (* Grant access to protected route *)
               ret (Next (Req.with_user currentUser req))
           end
     end)
    (fun _ => respond 401 (error_body "Invalid token")).

Definition restrictTo (roles : list string) (req : Req.t) : M Outcome :=
  match Req.user req with
  | None => throw "Cannot read properties of undefined (reading 'role')"
  | Some u =>
      if negb (includes roles (User.role u))
      then respond 403 (error_body "You do not have permission to perform this action")
      else ret (Next req)
  end.

(** Express runs the middlewares of a route in order: the second one runs
    when the first one calls [next()]. *)
Definition chain (first second : Req.t -> M Outcome) (req : Req.t)
    : M Outcome :=
  o <- first req ;;
  match o with
  | Next req' => second req'
  | _ => ret o
  end.

(** A protected operation: [protect], then [restrictTo(...roles)]. *)
Definition guard (now : Z) (roles : list string) : Req.t -> M Outcome :=
  chain (protect now) (restrictTo roles).

End Controller.

(** The status code a handler answered with, if it sent a response. *)
Definition status_of (result : Store * Result Outcome) : option Z :=
  match snd result with
  | Ok (Sent r) => Some (statusCode r)
  | _ => None
  end.

(** A handler has answered in the standard envelope: it returned, having
    sent a response with an HTTP status code whose body is the envelope.
    A handler whose result is a [Throw] let the error escape. *)
Definition answers_in_envelope (result : Store * Result Outcome) : Prop :=
  exists r,
    snd result = Ok (Sent r) /\
    is_envelope (body r) = true /\
    200 <= statusCode r < 600.

(* ------------------------------------------------------------------ *)
(** * The Sessions page: [fetchSessions] *)

Module Sessions.

(** [session.sessionHead], when populated. *)
Record Head : Type := mkHead {
  fullName : option string;
  profilePhoto : option string
}.

(** A session as the REST backend returns it. *)
Record Session : Type := mkSession {
  _id : string;
  title : option string;
  description : option string;
  sessionHead : option Head;
  date : option string;
  time : option string;
  venue : option string;
  status : option string
}.

(** [formattedSession] *)
Record Formatted : Type := mkFormatted {
  f_title : string;
  f_description : string;
  f_conductedBy : Head;
  f_profileImage : string;
  f_date : string;
  f_month : string;
  f_venue : string;
  f_location : string;
  f_id : string;
  f_status : string
}.

(** [categorizedSessions] *)
Record Categorized : Type := mkCategorized {
  ongoing : list Formatted;
  previous : list Formatted;
  upcoming : list Formatted
}.

(** [x || fallback] on a string that may be absent. *)
Definition or_else (x : option string) (fallback : string) : string :=
  match x with
  | Some s => if String.eqb s "" then fallback else s
  | None => fallback
  end.

(** [session.status === k] *)
Definition status_is (k : string) (session : Session) : bool :=
  match status session with
  | Some s => String.eqb s k
  | None => false
  end.

Section Categorise.

(** The calendar arithmetic of [Date]: the day of the month and the
    long month name of the session's date, with the hours and minutes
    of its time set on it. *)
Variable dayOfMonth : option string -> string -> string.
Variable monthName : option string -> string -> string.

Definition format (session : Session) : Formatted :=
  let sessionTime := or_else (time session) "00:00" in
  mkFormatted
    (or_else (title session) "Untitled Session")
    (or_else (description session) "No description available")
    (match sessionHead session with
     | Some h => h
     | None => mkHead (Some "TBA") None
     end)
    (or_else (match sessionHead session with
              | Some h => profilePhoto h
              | None => None
              end) "/default-profile.png")
    (dayOfMonth (date session) sessionTime)
    (monthName (date session) sessionTime)
    (or_else (venue session) "TBA")
    (or_else (venue session) "TBA")
    (_id session)
    (or_else (status session) "upcoming").

(** The body of [allSessions.forEach(session => ...)]; [push] appends. *)
Definition visit (acc : Categorized) (entry : option Session)
    : Categorized :=
  match entry with
  | None => acc (* Skip if session is null or undefined *)
  | Some session =>
      let formattedSession := format session in
      if status_is "ongoing" session then
        mkCategorized (ongoing acc ++ [formattedSession])
          (previous acc) (upcoming acc)
      else if status_is "completed" session then
        mkCategorized (ongoing acc)
          (previous acc ++ [formattedSession]) (upcoming acc)
      else
        mkCategorized (ongoing acc) (previous acc)
          (upcoming acc ++ [formattedSession])
  end.

Definition categorize (allSessions : list (option Session))
    : Categorized :=
  fold_left visit allSessions (mkCategorized [] [] []).

(** The entries of the fetched list that are sessions, in order. *)
Fixpoint present (l : list (option Session)) : list Session :=
  match l with
  | [] => []
  | Some s :: l' => s :: present l'
  | None :: l' => present l'
  end.

Definition goes_upcoming (session : Session) : bool :=
  negb (status_is "ongoing" session) &&
  negb (status_is "completed" session).

End Categorise.

End Sessions.

(* ------------------------------------------------------------------ *)
(** * A concrete environment

    One instance of the collaborators, on which the statements below can
    be evaluated: a toy serialisation of tokens (numbers in unary),
    signatures that are the secret itself, a hash that prefixes its
    input, a schema that accepts every document, a connection that never
    fails, and a mail service that delivers. *)

Module Demo.

Fixpoint unary (n : nat) (rest : string) : string :=
  match n with
  | O => String "."%char rest
  | S k => String "1"%char (unary k rest)
  end.

Fixpoint read_unary (s : string) : option (nat * string) :=
  match s with
  | EmptyString => None
  | String c rest =>
      if Ascii.eqb c "."%char then Some (O, rest)
      else if Ascii.eqb c "1"%char then
        match read_unary rest with
        | Some (n, rest') => Some (S n, rest')
        | None => None
        end
      else None
  end.

(** An integer is written as its positive and its negative part. *)
Definition write_Z (z : Z) (rest : string) : string :=
  unary (Z.to_nat z) (unary (Z.to_nat (- z)) rest).

Definition read_Z (s : string) : option (Z * string) :=
  match read_unary s with
  | Some (a, s1) =>
      match read_unary s1 with
      | Some (b, s2) => Some (Z.of_nat a - Z.of_nat b, s2)
      | None => None
      end
  | None => None
  end.

Definition write_option (z : option Z) (rest : string) : string :=
  match z with
  | None => unary 0 rest
  | Some v => unary 1 (write_Z v rest)
  end.

Definition read_option (s : string) : option (option Z * string) :=
  match read_unary s with
  | Some (O, s1) => Some (None, s1)
  | Some (S _, s1) =>
      match read_Z s1 with
      | Some (v, s2) => Some (Some v, s2)
      | None => None
      end
  | None => None
  end.

Definition encode (t : Payload.t * string) : string :=
  let (p, signature) := t in
  write_option (option_map Z.of_N (Payload.id p))
    (write_Z (Payload.iat p) (write_option (Payload.exp p) signature)).

Definition decode (s : string) : option (Payload.t * string) :=
  match read_option s with
  | Some (i, s1) =>
      match read_Z s1 with
      | Some (issued, s2) =>
          match read_option s2 with
          | Some (e, signature) =>
              Some (Payload.mk (option_map Z.to_N i) issued e, signature)
          | None => None
          end
      | None => None
      end
  | None => None
  end.

Lemma read_unary_unary (n : nat) (rest : string) :
  read_unary (unary n rest) = Some (n, rest).
Proof.
  induction n as [|n IH]; simpl; [reflexivity|].
  now rewrite IH.
Qed.

Lemma read_Z_write_Z (z : Z) (rest : string) :
  read_Z (write_Z z rest) = Some (z, rest).
Proof.
  unfold read_Z, write_Z.
  rewrite !read_unary_unary.
  do 2 f_equal. lia.
Qed.

Lemma read_option_write_option (z : option Z) (rest : string) :
  read_option (write_option z rest) = Some (z, rest).
Proof.
  destruct z as [v|]; unfold read_option, write_option.
  - rewrite read_unary_unary, read_Z_write_Z. reflexivity.
  - rewrite read_unary_unary. reflexivity.
Qed.

Lemma decode_encode (t : Payload.t * string) : decode (encode t) = Some t.
Proof.
  destruct t as [[i issued e] signature]; unfold decode, encode; simpl.
  rewrite read_option_write_option, read_Z_write_Z,
    read_option_write_option.
  destruct i as [n|]; simpl; [rewrite N2Z.id|]; reflexivity.
Qed.

(** The mail service of [env]; [failing_mailer] is one that rejects. *)
Definition mailer (_ : option string) (_ : string) : Result unit := Ok tt.

Definition failing_mailer (_ : option string) (_ : string)
    : Result unit :=
  Throw "connect ECONNREFUSED 127.0.0.1:587".

(** The stored hash of a password is ["$" ++ password]. *)
Definition hash (p : string) : string := "$" ++ p.

Definition compare (u : User.t) (candidate : option string)
    : Result bool :=
  match User.password u, candidate with
  | Some h, Some p => Ok (String.eqb h (hash p))
  | _, _ => Throw "Illegal arguments"
  end.

Definition env_with (secret : option string)
    (send : option string -> string -> Result unit) : Env :=
  mkEnv secret (Some 3600) "http://localhost:5173"
    (fun key _ => key) encode decode decode_encode
    (fun s => "#" ++ s) (fun _ => "r4nd0m")
    (fun _ => None) hash compare 600000
    (fun _ => None) send.

Definition env : Env := env_with (Some "secret") mailer.

Definition alice : User.t :=
  User.mk 7%N None (Some "Alice") (Some "alice@example.com")
    (Some "$Secret123!") (Some "student") None None None None
    true None None None None.

(** [alice] holding a reset ticket for the raw token ["r4nd0m"] that
    expires at time [600000]. *)
Definition alice_ticketed : User.t :=
  User.with_reset_ticket (Some "#r4nd0m") (Some 600000) alice.

Definition store : Store := mkStore [alice] 8%N.

(** The token [signToken] issues for [alice] at time 5000, and a request
    that carries it. *)
Definition alice_payload : Payload.t :=
  Payload.mk (Some 7%N) 5 (Some 3605).

Definition alice_token : string :=
  Eval cbv in
    match signToken env 5000 (Some 7%N) with
    | Ok token => token
    | Throw _ => ""
    end.

Definition bearer_request (token : string) : Req.t :=
  Req.mk (Some ("Bearer " ++ token)) "" None None.

Definition json_request (b : Body.t) : Req.t :=
  Req.mk None "" (Some b) None.

Definition credentials (email password : string) : Body.t :=
  Body.mk None (Some email) (Some password) None None None None.

(** The registration of [bob] at time 5000: his record as stored, and the
    response he gets. *)
Definition bob_registration : Body.t :=
  Body.mk (Some "Bob") (Some "bob@example.com") (Some "Hunter22!")
    (Some "alumni") (Some "CSE") None None.

Definition bob : User.t :=
  User.mk 8%N None (Some "Bob") (Some "bob@example.com")
    (Some "$Hunter22!") (Some "alumni") (Some "CSE") None None None
    true None None None None.

Definition bob_response : Response :=
  Eval cbv in
    match signup env 5000 (json_request bob_registration) store with
    | (_, Ok (Sent r)) => r
    | _ => mkResponse 0 (JObj [])
    end.

End Demo.

(* ------------------------------------------------------------------ *)
(** * Theorems *)

(** ** Stepping the calls on the store *)

Section StoreCalls.

Variable E : Env.

Lemma db_ok (op : DbOp) (s : Store) :
  db_fault E op = None -> db E op s = (s, Ok tt).
Proof. intros H. unfold db. now rewrite H. Qed.

Lemma User_findOne_ok (q : User.t -> bool) (s : Store) :
  db_fault E FindOne = None ->
  User_findOne E q s = (s, Ok (find q (docs s))).
Proof. intros H. unfold User_findOne, bind. now rewrite db_ok. Qed.

Lemma User_findById_ok (i : option Oid) (s : Store) :
  db_fault E FindById = None ->
  User_findById E i s = (s, Ok (document s i)).
Proof. intros H. unfold User_findById, bind. now rewrite db_ok. Qed.

Lemma find_none_iff {A} (q : A -> bool) (l : list A) :
  find q l = None <-> forall x, In x l -> q x = false.
Proof.
  split.
  - apply find_none.
  - induction l as [|a l IH]; simpl; [reflexivity|].
    intros H. rewrite (H a (or_introl eq_refl)). apply IH.
    intros x Hx. apply H. now right.
Qed.

Lemma find_some_of_in {A} (q : A -> bool) (l : list A) (x : A) :
  In x l -> q x = true -> exists y, find q l = Some y /\ In y l /\ q y = true.
Proof.
  intros Hin Hq. destruct (find q l) as [y|] eqn:F.
  - exists y. apply find_some in F. tauto.
  - rewrite (find_none _ _ F _ Hin) in Hq. discriminate.
Qed.

End StoreCalls.

(** ** Token service *)

Section TokenService.

Variable E : Env.

Lemma jwt_verify_signed (i : option Oid) (key : string) (ttl issuedAt now : Z) :
  key <> "" ->
  jwt_verify E
    (jwt_encode E (Payload.mk i (issuedAt / 1000) (Some (issuedAt / 1000 + ttl)),
                   hmac E key (Payload.mk i (issuedAt / 1000)
                                 (Some (issuedAt / 1000 + ttl)))))
    (Some key) now =
  if issuedAt / 1000 + ttl <=? now / 1000 then Throw "jwt expired"
  else Ok (Payload.mk i (issuedAt / 1000) (Some (issuedAt / 1000 + ttl))).
Proof.
  intros Hkey. unfold jwt_verify. rewrite jwt_decode_encode. simpl.
  destruct (String.eqb_spec key "") as [->|_]; [congruence|].
  rewrite String.eqb_refl. simpl. reflexivity.
Qed.

Lemma signToken_configured (i : option Oid) (key : string) (ttl issuedAt : Z) :
  JWT_SECRET E = Some key -> key <> "" -> JWT_EXPIRE E = Some ttl ->
  signToken E issuedAt i =
  Ok (jwt_encode E (Payload.mk i (issuedAt / 1000) (Some (issuedAt / 1000 + ttl)),
                    hmac E key (Payload.mk i (issuedAt / 1000)
                                  (Some (issuedAt / 1000 + ttl))))).
Proof.
  intros Hs Hk Ht. unfold signToken, jwt_sign. rewrite Hs, Ht. simpl.
  destruct (String.eqb_spec key "") as [->|_]; [congruence|]. reflexivity.
Qed.

(** What [protect] does with a request that carries a bearer token. *)
Lemma protect_bearer (now : Z) (req : Req.t) (token : string) (s : Store) :
  bearer req = Some token -> token <> "" ->
  protect E now req s =
  match jwt_verify E token (JWT_SECRET E) now with
  | Throw _ => (s, Ok (Sent InvalidTokenError))
  | Ok decoded =>
      match User_findById E (Payload.id decoded) s with
      | (s', Throw _) => (s', Ok (Sent InvalidTokenError))
      | (s', Ok None) => (s', Ok (Sent StaleIdentityError))
      | (s', Ok (Some currentUser)) =>
          (s', Ok (Next (Req.with_user currentUser req)))
      end
  end.
Proof.
  intros Hb Ht. unfold protect, try_catch. rewrite Hb.
  destruct (String.eqb_spec token "") as [->|_]; [congruence|].
  unfold bind at 1, lift.
  destruct (jwt_verify E token (JWT_SECRET E) now) as [decoded|e];
    [|reflexivity].
  unfold bind.
  destruct (User_findById E (Payload.id decoded) s) as [s' [[u|]|e]];
    reflexivity.
Qed.

(** C1. For every identity id, the token [signToken] issues for it
    verifies and yields that id at every time at which the expiry carried
    by the token has not been reached: [jwt.verify] returns a payload
    with that id, and [protect], for a request that carries the token,
    looks that id up and hands the request on with the record stored
    under it (or answers that the identity no longer exists when there
    is none).  From the expiry on, verification throws, and [protect]
    answers a request that carries the token with the one 401
    ["Invalid token"] response.  Times are read on the clock of the
    token, in whole seconds; the secret and the lifetime are configured;
    the lookup of the identity completes. *)
Theorem signToken_verify_until_expiry
    (i : Oid) (key : string) (ttl issuedAt : Z) :
  JWT_SECRET E = Some key -> key <> "" -> JWT_EXPIRE E = Some ttl ->
  exists token,
    signToken E issuedAt (Some i) = Ok token /\
    (forall now, now / 1000 < issuedAt / 1000 + ttl ->
       (exists decoded,
          jwt_verify E token (JWT_SECRET E) now = Ok decoded /\
          Payload.id decoded = Some i) /\
       forall req s, bearer req = Some token -> token <> "" ->
         db_fault E FindById = None ->
         protect E now req s =
         (s, match document s (Some i) with
             | Some user => Ok (Next (Req.with_user user req))
             | None => Ok (Sent StaleIdentityError)
             end)) /\
    (forall now, issuedAt / 1000 + ttl <= now / 1000 ->
       jwt_verify E token (JWT_SECRET E) now = Throw "jwt expired" /\
       forall req s, bearer req = Some token -> token <> "" ->
         protect E now req s = (s, Ok (Sent InvalidTokenError))).
Proof.
  intros Hs Hk Ht.
  eexists. split; [apply (signToken_configured _ _ Hs Hk Ht)|].
  rewrite Hs. split.
  - intros now Hnow.
    pose proof (jwt_verify_signed (Some i) ttl issuedAt now Hk) as Hv.
    destruct (Z.leb_spec (issuedAt / 1000 + ttl) (now / 1000)); [lia|].
    split.
    + eexists. split; [exact Hv|reflexivity].
    + intros req s Hb Hne Hdb.
      rewrite (protect_bearer now req s Hb Hne), Hs, Hv.
      rewrite (User_findById_ok E _ s Hdb). cbn [Payload.id].
      destruct (document s (Some i)); reflexivity.
  - intros now Hnow.
    pose proof (jwt_verify_signed (Some i) ttl issuedAt now Hk) as Hv.
    destruct (Z.leb_spec (issuedAt / 1000 + ttl) (now / 1000)); [|lia].
    split; [exact Hv|].
    intros req s Hb Hne. rewrite (protect_bearer now req s Hb Hne).
    rewrite Hs, Hv. reflexivity.
Qed.

End TokenService.

(** The token issued for [alice] at time 5000 under [Demo.env], whose
    lifetime is 3600 seconds: presented in its last second it opens
    [protect] for [alice], presented at its expiry it is refused. *)
Lemma signToken_verify_until_expiry_witness :
  signToken Demo.env 5000 (Some 7%N) = Ok Demo.alice_token /\
  (exists decoded,
     jwt_verify Demo.env Demo.alice_token (JWT_SECRET Demo.env) 3604999
       = Ok decoded /\
     Payload.id decoded = Some 7%N) /\
  protect Demo.env 3604999 (Demo.bearer_request Demo.alice_token)
    Demo.store =
    (Demo.store,
     Ok (Next (Req.with_user Demo.alice
                 (Demo.bearer_request Demo.alice_token)))) /\
  protect Demo.env 3605000 (Demo.bearer_request Demo.alice_token)
    Demo.store = (Demo.store, Ok (Sent InvalidTokenError)).
Proof.
  destruct (@signToken_verify_until_expiry Demo.env 7%N "secret" 3600 5000
              eq_refl ltac:(discriminate) eq_refl)
    as [token [Hsign [Hbefore Hafter]]].
  assert (Htoken : token = Demo.alice_token)
    by (change (Ok Demo.alice_token = Ok token) in Hsign; congruence).
  subst token.
  destruct (Hbefore 3604999 eq_refl) as [Hverify Hprotect].
  destruct (Hafter 3605000 ltac:(discriminate)) as [_ Hrefused].
  split; [exact Hsign|]. split; [exact Hverify|]. split.
  - exact (Hprotect (Demo.bearer_request Demo.alice_token) Demo.store
             eq_refl ltac:(discriminate) eq_refl).
  - exact (Hrefused (Demo.bearer_request Demo.alice_token) Demo.store
             eq_refl ltac:(discriminate)).
Defined.

(** ** Access guard *)

Section AccessGuard.

Variable E : Env.

Lemma protect_no_bearer (now : Z) (req : Req.t) (s : Store) :
  falsy (bearer req) = true ->
  protect E now req s = (s, Ok (Sent UnauthenticatedError)).
Proof.
  unfold protect, try_catch, falsy.
  destruct (bearer req) as [token|]; [|reflexivity].
  intros ->. reflexivity.
Qed.

Lemma guard_of_protect (now : Z) (roles : list string) (req : Req.t)
    (s s' : Store) (r : Response) :
  protect E now req s = (s', Ok (Sent r)) ->
  guard E now roles req s = (s', Ok (Sent r)).
Proof. intros H. unfold guard, chain, bind. now rewrite H. Qed.

(** C2. The access guard of a protected operation ([protect], then
    [restrictTo] with the operation's allow-list) proceeds in order: no
    bearer token, 401 UnauthenticatedError; a token that fails
    verification, 401 InvalidTokenError; a verified token whose id
    resolves to no identity record, 401 StaleIdentityError; an identity
    whose role is not in the allow-list, 403 ForbiddenError; otherwise the
    identity is attached to the request, which goes on to the handler.
    The store is left as it was.  The lookup of the identity is assumed to
    complete. *)
Theorem guard_procedure (now : Z) (roles : list string) (req : Req.t)
    (s : Store) :
  db_fault E FindById = None ->
  (falsy (bearer req) = true ->
   guard E now roles req s = (s, Ok (Sent UnauthenticatedError))) /\
  (forall token, bearer req = Some token -> token <> "" ->
     (forall e, jwt_verify E token (JWT_SECRET E) now = Throw e ->
        guard E now roles req s = (s, Ok (Sent InvalidTokenError))) /\
     (forall decoded, jwt_verify E token (JWT_SECRET E) now = Ok decoded ->
        (document s (Payload.id decoded) = None ->
         guard E now roles req s = (s, Ok (Sent StaleIdentityError))) /\
        (forall u, document s (Payload.id decoded) = Some u ->
           (includes roles (User.role u) = false ->
            guard E now roles req s = (s, Ok (Sent ForbiddenError))) /\
           (includes roles (User.role u) = true ->
            guard E now roles req s = (s, Ok (Next (Req.with_user u req))) /\
            Req.user (Req.with_user u req) = Some u)))).
Proof.
  intros Hdb. split.
  - intros Hf. apply guard_of_protect. now apply protect_no_bearer.
  - intros token Hb Hne.
    pose proof (protect_bearer E now req s Hb Hne) as P. split.
    + intros e He. rewrite He in P. now apply guard_of_protect.
    + intros decoded Hd. rewrite Hd, (User_findById_ok E _ s Hdb) in P. split.
      * intros Hn. rewrite Hn in P. now apply guard_of_protect.
      * intros u Hu. rewrite Hu in P.
        unfold guard, chain, bind. rewrite P.
        unfold restrictTo. simpl.
        split; [intros ->; reflexivity|].
        intros ->. split; reflexivity.
Qed.

End AccessGuard.

(** [alice], a student, presents her token to an operation reserved to
    admins: 403; to one open to students: the request goes on with her
    record attached. *)
Lemma guard_procedure_witness :
  guard Demo.env 6000 ["admin"] (Demo.bearer_request Demo.alice_token)
    Demo.store = (Demo.store, Ok (Sent ForbiddenError)) /\
  guard Demo.env 6000 ["student"; "admin"]
    (Demo.bearer_request Demo.alice_token) Demo.store =
  (Demo.store,
   Ok (Next (Req.with_user Demo.alice
               (Demo.bearer_request Demo.alice_token)))).
Proof.
  split.
  - destruct (@guard_procedure Demo.env 6000 ["admin"]
                (Demo.bearer_request Demo.alice_token) Demo.store eq_refl)
      as [_ H].
    destruct (H Demo.alice_token eq_refl ltac:(discriminate)) as [_ H1].
    destruct (H1 Demo.alice_payload eq_refl) as [_ H2].
    destruct (H2 Demo.alice eq_refl) as [H3 _].
    exact (H3 eq_refl).
  - destruct (@guard_procedure Demo.env 6000 ["student"; "admin"]
                (Demo.bearer_request Demo.alice_token) Demo.store eq_refl)
      as [_ H].
    destruct (H Demo.alice_token eq_refl ltac:(discriminate)) as [_ H1].
    destruct (H1 Demo.alice_payload eq_refl) as [_ H2].
    destruct (H2 Demo.alice eq_refl) as [_ H3].
    exact (proj1 (H3 eq_refl)).
Defined.

(** ** Login *)

Section Login.

Variable E : Env.


End Login.




(** ** Password reset *)

Section ResetPassword.

Variable E : Env.

Lemma option_eqb_some (a : option string) (x : string) :
  option_eqb a (Some x) = true <-> a = Some x.
Proof.
  destruct a as [y|]; simpl; split; try discriminate.
  - intros H. apply String.eqb_eq in H. now subst.
  - intros [= ->]. apply String.eqb_refl.
Qed.

Lemma by_reset_ticket_true (h : string) (now : Z) (u : User.t) :
  by_reset_ticket h now u = true <->
  User.passwordResetToken u = Some h /\
  exists t, User.passwordResetExpires u = Some t /\ now < t.
Proof.
  unfold by_reset_ticket. rewrite andb_true_iff, option_eqb_some.
  destruct (User.passwordResetExpires u) as [t|].
  - rewrite Z.ltb_lt. split.
    + intros [H1 H2]. split; [exact H1|]. now exists t.
    + intros [H1 [t' [[= <-] H2]]]. now split.
  - split; [intros [_ H]; discriminate|].
    intros [_ [t [H _]]]. discriminate.
Qed.

Lemma user_save_ok (u : User.t) (passwordModified : bool) (s : Store) :
  db_fault E Save = None -> validate E u = None ->
  user_save E u passwordModified s =
  (mkStore
     (map (fun v => if N.eqb (User._id v) (User._id u)
                    then (if passwordModified then hash_password E u else u)
                    else v) (docs s))
     (nextOid s), Ok tt).
Proof.
  intros Hdb Hv. unfold user_save, bind. rewrite (db_ok E _ s Hdb), Hv.
  reflexivity.
Qed.

(** C4. An identity holds a live reset ticket, and no other identity holds
    the same ticket.  A first reset-password call with the matching raw
    token succeeds: in one update of the store the record gets the hash
    of the new password and loses both ticket fields.  Every later call
    with the same raw token, at any time and with any body, fails with
    InvalidOrExpiredTokenError and leaves the store as it is.  The store
    calls complete and the schema accepts the new password. *)
Theorem resetPassword_single_use (now expires : Z) (s : Store)
    (req : Req.t) (b : Body.t) (u : User.t) :
  let hashedToken := sha256hex E (Req.token req) in
  let renewed :=
    hash_password E
      (User.with_reset_ticket None None
         (User.with_password (Body.password b) u)) in
  let s' :=
    mkStore (map (fun v => if N.eqb (User._id v) (User._id u)
                           then renewed else v) (docs s)) (nextOid s) in
  Req.body req = Some b ->
  In u (docs s) ->
  User.passwordResetToken u = Some hashedToken ->
  User.passwordResetExpires u = Some expires ->
  now < expires ->
  (forall v, In v (docs s) ->
     User.passwordResetToken v = Some hashedToken -> v = u) ->
  db_fault E FindOne = None ->
  db_fault E Save = None ->
  validate E (User.with_reset_ticket None None
                (User.with_password (Body.password b) u)) = None ->
  resetPassword E now req s =
    (s', Ok (Sent (mkResponse 200
                     (success_body "Password reset successfully")))) /\
  User.password renewed = option_map (bcrypt_hash E) (Body.password b) /\
  User.passwordResetToken renewed = None /\
  User.passwordResetExpires renewed = None /\
  forall later again, Req.token again = Req.token req ->
    resetPassword E later again s' =
    (s', Ok (Sent InvalidOrExpiredTokenError)).
Proof.
  intros hashedToken renewed s' Hb Hin Htok Hexp Hlive Huniq Hfind Hsave Hval.
  split; [|split; [reflexivity|split; [reflexivity|split; [reflexivity|]]]].
  - unfold resetPassword, try_catch, bind.
    rewrite (User_findOne_ok E _ s Hfind).
    destruct (@find_some_of_in _ (by_reset_ticket hashedToken now) (docs s) u
                Hin) as [y [Hy [Hyin Hyq]]].
    { apply by_reset_ticket_true. split; [exact Htok|]. now exists expires. }
    apply by_reset_ticket_true in Hyq. destruct Hyq as [Hytok _].
    rewrite (Huniq y Hyin Hytok) in Hy.
    fold hashedToken. rewrite Hy, Hb.
    rewrite (user_save_ok _ true s Hsave Hval). reflexivity.
  - intros later again Hsame.
    unfold resetPassword, try_catch, bind.
    rewrite (User_findOne_ok E _ s' Hfind), Hsame. fold hashedToken.
    replace (find (by_reset_ticket hashedToken later) (docs s'))
      with (@None User.t); [reflexivity|].
    symmetry. apply find_none_iff. intros x Hx.
    unfold s' in Hx. simpl in Hx. apply in_map_iff in Hx.
    destruct Hx as [v [Hv Hvin]].
    destruct (by_reset_ticket hashedToken later x) eqn:Q; [|reflexivity].
    apply by_reset_ticket_true in Q. destruct Q as [Q _].
    destruct (N.eqb_spec (User._id v) (User._id u)) as [Hid|Hid].
    + subst x. discriminate Q.
    + subst x. elim Hid. now rewrite (Huniq v Hvin Q).
Qed.

End ResetPassword.

(** [alice] holds the ticket of the raw token ["r4nd0m"] until time
    600000; she resets her password at time 1000. *)
Lemma resetPassword_single_use_witness :
  resetPassword Demo.env 1000
    (Req.mk None "r4nd0m" (Some (Demo.credentials "" "N3wSecret!")) None)
    (mkStore [Demo.alice_ticketed] 8%N) =
  (mkStore [User.with_password (Some "$N3wSecret!") Demo.alice] 8%N,
   Ok (Sent (mkResponse 200 (success_body "Password reset successfully")))) /\
  forall later again, Req.token again = "r4nd0m" ->
    resetPassword Demo.env later again
      (mkStore [User.with_password (Some "$N3wSecret!") Demo.alice] 8%N) =
    (mkStore [User.with_password (Some "$N3wSecret!") Demo.alice] 8%N,
     Ok (Sent InvalidOrExpiredTokenError)).
Proof.
  destruct (@resetPassword_single_use Demo.env 1000 600000
              (mkStore [Demo.alice_ticketed] 8%N)
              (Req.mk None "r4nd0m"
                 (Some (Demo.credentials "" "N3wSecret!")) None)
              (Demo.credentials "" "N3wSecret!") Demo.alice_ticketed
              eq_refl (or_introl eq_refl) eq_refl eq_refl eq_refl)
    as [H1 [_ [_ [_ H2]]]].
  - intros v [<-|[]] _. reflexivity.
  - reflexivity.
  - reflexivity.
  - reflexivity.
  - split; [exact H1 | exact H2].
Defined.

(** ** Registration *)

Section Signup.

Variable E : Env.

(** C5. When the store already holds an identity with the email of a
    registration request, the request fails with DuplicateIdentityError
    and the store after it is the store before it: no record is created
    and none is changed.  The lookup is assumed to complete. *)
Theorem signup_duplicate (now : Z) (s : Store) (req : Req.t) (b : Body.t)
    (u : User.t) :
  Req.body req = Some b ->
  In u (docs s) ->
  User.email u = Body.email b ->
  db_fault E FindOne = None ->
  signup E now req s = (s, Ok (Sent DuplicateIdentityError)).
Proof.
  intros Hb Hin Hu Hdb.
  unfold signup, try_catch, destructure_body. rewrite Hb.
  unfold bind, ret. rewrite (User_findOne_ok E _ s Hdb).
  destruct (@find_some_of_in _ (by_email (Body.email b)) (docs s) u Hin)
    as [y [Hy _]].
  - unfold by_email. rewrite Hu.
    destruct (Body.email b); simpl; [apply String.eqb_refl|reflexivity].
  - rewrite Hy. reflexivity.
Qed.

End Signup.

(** A second registration of [alice]'s address. *)
Lemma signup_duplicate_witness :
  signup Demo.env 0
    (Demo.json_request (Demo.credentials "alice@example.com" "Other456!"))
    Demo.store = (Demo.store, Ok (Sent DuplicateIdentityError)).
Proof.
  apply (@signup_duplicate Demo.env 0 Demo.store _
           (Demo.credentials "alice@example.com" "Other456!") Demo.alice).
  - reflexivity.
  - left. reflexivity.
  - reflexivity.
  - reflexivity.
Defined.

(** ** Forgotten password *)

Section ForgotPassword.

Variable E : Env.

(** C6, as the controller has it.  For a forgot-password request for an
    existing email, when the reset ticket has been persisted and the
    notification send then fails, the request answers 400 with the error
    envelope that carries the message of the failure; the persisted
    ticket stays in the store. *)
Theorem forgotPassword_send_failure (now : Z) (s : Store) (req : Req.t)
    (b : Body.t) (u : User.t) (e : JsError) :
  let ticketed :=
    User.with_reset_ticket (Some (sha256hex E (randomBytes E now)))
      (Some (now + resetTicketTtl E)) u in
  Req.body req = Some b ->
  find (by_email (Body.email b)) (docs s) = Some u ->
  db_fault E FindOne = None ->
  db_fault E Save = None ->
  validate E ticketed = None ->
  sendPasswordResetEmail E (Body.email b) (randomBytes E now) = Throw e ->
  forgotPassword E now req s =
  (mkStore (map (fun v => if N.eqb (User._id v) (User._id u)
                          then ticketed else v) (docs s)) (nextOid s),
   Ok (Sent (mkResponse 400 (error_body e)))) /\
  is_envelope (error_body e) = true /\
  lookup "status" (error_body e) = Some (JStr "error").
Proof.
  intros ticketed Hb Hu Hfind Hsave Hval Hsend.
  split; [|split; reflexivity].
  unfold forgotPassword, try_catch, destructure_body. rewrite Hb.
  unfold bind at 1, ret. unfold bind at 1.
  rewrite (User_findOne_ok E _ s Hfind), Hu.
  unfold user_generatePasswordResetToken. fold ticketed.
  unfold bind at 1. rewrite (user_save_ok E _ false s Hsave Hval).
  unfold bind, lift. rewrite Hsend. reflexivity.
Qed.

End ForgotPassword.

(** C6, as stated, fails: [alice] asks for a reset while the mail server
    refuses connections.  The ticket is persisted on her record, the send
    throws, and the answer is the 400 error envelope, not a success. *)
Lemma forgotPassword_send_failure_counterexample :
  sendPasswordResetEmail (Demo.env_with (Some "secret") Demo.failing_mailer)
    (Some "alice@example.com") "r4nd0m"
    = Throw "connect ECONNREFUSED 127.0.0.1:587" /\
  forgotPassword (Demo.env_with (Some "secret") Demo.failing_mailer) 0
    (Demo.json_request (Demo.credentials "alice@example.com" ""))
    Demo.store =
  (mkStore [Demo.alice_ticketed] 8%N,
   Ok (Sent (mkResponse 400
               (error_body "connect ECONNREFUSED 127.0.0.1:587")))) /\
  lookup "status" (error_body "connect ECONNREFUSED 127.0.0.1:587")
    <> Some (JStr "success").
Proof.
  split; [reflexivity|]. split; [reflexivity|]. discriminate.
Qed.

Lemma forgotPassword_send_failure_witness :
  forgotPassword (Demo.env_with (Some "secret") Demo.failing_mailer) 0
    (Demo.json_request (Demo.credentials "alice@example.com" ""))
    Demo.store =
  (mkStore [Demo.alice_ticketed] 8%N,
   Ok (Sent (mkResponse 400
               (error_body "connect ECONNREFUSED 127.0.0.1:587")))).
Proof.
  exact (proj1 (@forgotPassword_send_failure
                  (Demo.env_with (Some "secret") Demo.failing_mailer) 0 Demo.store
                  (Demo.json_request
                     (Demo.credentials "alice@example.com" ""))
                  (Demo.credentials "alice@example.com" "") Demo.alice
                  "connect ECONNREFUSED 127.0.0.1:587"
                  eq_refl eq_refl eq_refl eq_refl eq_refl eq_refl)).
Defined.

(** ** What a successful registration stores and returns *)

Section Registration.

Variable E : Env.

(** A 201 from [signup] means: a body was parsed, no record had its
    email, the record built from it was stored under the next id, and a
    token was issued for that id. *)
Lemma signup_created (now : Z) (req : Req.t) (s s' : Store) (r : Response) :
  signup E now req s = (s', Ok (Sent r)) -> statusCode r = 201 ->
  exists b token,
    Req.body req = Some b /\
    s' = mkStore
           (docs s ++
            [User.with_id (nextOid s) (hash_password E (signup_fields b))])
           (N.succ (nextOid s)) /\
    signToken E now (Some (nextOid s)) = Ok token /\
    r = mkResponse 201
          (JObj [("status", JStr "success");
                 ("token", JStr token);
                 ("data",
                  JObj [("user",
                         signup_projection
                           (User.with_id (nextOid s)
                              (hash_password E (signup_fields b))))])]).
Proof.
  unfold signup, try_catch, destructure_body.
  destruct (Req.body req) as [b|];
    [|unfold bind, throw, respond, ret; intros [= _ <-]; discriminate].
  unfold bind at 1, ret. unfold bind at 1.
  unfold User_findOne, bind at 1, db.
  destruct (db_fault E FindOne) as [e|];
    [unfold respond, ret; intros [= _ <-]; discriminate|].
  destruct (find (by_email (Body.email b)) (docs s)) as [existing|];
    [unfold respond, ret; intros [= _ <-]; discriminate|].
  unfold bind at 1. unfold User_create, bind at 1, db.
  destruct (db_fault E Create) as [e|];
    [unfold respond, ret; intros [= _ <-]; discriminate|].
  destruct (validate E (signup_fields b)) as [e|];
    [unfold respond, ret; intros [= _ <-]; discriminate|].
  unfold bind, lift. simpl User._id.
  destruct (signToken E now (Some (nextOid s))) as [token|e];
    [|unfold respond, ret; intros [= _ <-]; discriminate].
  unfold respond, ret. intros [= <- <-] _.
  exists b, token. repeat split; reflexivity.
Qed.

End Registration.

Section RegistrationPayload.

Variable E : Env.

Lemma signup_projection_keys (user : User.t) (k : string) :
  In k (keys (signup_projection user)) ->
  In k ["id"; "fullName"; "email"; "role"; "isEmailVerified"].
Proof.
  unfold signup_projection, str, prop.
  destruct (User.fullName user), (User.email user), (User.role user);
    simpl; intuition.
Qed.

Lemma signup_payload_keys (token : string) (projection : Json) :
  keys (JObj [("status", JStr "success");
              ("token", JStr token);
              ("data", JObj [("user", projection)])]) =
  "status" :: "token" :: "data" :: "user" :: keys projection.
Proof.
  cbn [keys app]. rewrite !app_nil_r. reflexivity.
Qed.

(** C7. The payload of every successful registration is the envelope
    with a token and, under [data.user], a projection of the stored
    identity whose properties are among id, fullName, email, role and
    isEmailVerified.  No property of the payload, at any depth, is named
    password, and the payload does not depend on the password: the same
    registration with any other password, when it succeeds, gets the
    same payload. *)
Theorem signup_response_hides_password (now : Z) (req : Req.t)
    (s s' : Store) (r : Response) :
  signup E now req s = (s', Ok (Sent r)) -> statusCode r = 201 ->
  exists token user,
    In user (docs s') /\
    body r = JObj [("status", JStr "success");
                   ("token", JStr token);
                   ("data", JObj [("user", signup_projection user)])] /\
    (forall k, In k (keys (signup_projection user)) ->
       In k ["id"; "fullName"; "email"; "role"; "isEmailVerified"]) /\
    ~ In "password" (keys (body r)) /\
    forall b other again s2 r2,
      Req.body req = Some b ->
      Req.body again = Some (Body.with_password other b) ->
      signup E now again s = (s2, Ok (Sent r2)) -> statusCode r2 = 201 ->
      r2 = r.
Proof.
  intros H Hcode.
  destruct (signup_created E now req s H Hcode)
    as [b [token [Hb [Hs' [Htok Hr]]]]].
  exists token,
    (User.with_id (nextOid s) (hash_password E (signup_fields b))).
  split; [rewrite Hs'; simpl; apply in_or_app; right; left; reflexivity|].
  split; [rewrite Hr; reflexivity|].
  split; [apply signup_projection_keys|].
  split.
  - rewrite Hr. simpl body. rewrite signup_payload_keys.
    intros [Hin|[Hin|[Hin|[Hin|Hin]]]]; try discriminate.
    apply signup_projection_keys in Hin. simpl in Hin.
    intuition discriminate.
  - intros b0 other again s2 r2 Hb0 Hagain H2 Hcode2.
    rewrite Hb in Hb0. injection Hb0 as <-.
    destruct (signup_created E now again s H2 Hcode2)
      as [b2 [token2 [Hb2 [_ [Htok2 Hr2]]]]].
    rewrite Hagain in Hb2. injection Hb2 as <-.
    rewrite Htok in Htok2. injection Htok2 as <-.
    rewrite Hr, Hr2. reflexivity.
Qed.

(** C8. Every successful registration through [signup] stores the new
    identity record with its verification flag already true: the record
    is appended to the store in the one insertion, carries no
    verification ticket, none is consumed, and no provider id; the
    response reports the flag as true. *)
Theorem signup_marks_verified (now : Z) (req : Req.t) (s s' : Store)
    (r : Response) :
  signup E now req s = (s', Ok (Sent r)) -> statusCode r = 201 ->
  exists user,
    docs s' = (docs s ++ [user])%list /\
    User.isEmailVerified user = true /\
    User.emailVerificationToken user = None /\
    User.emailVerificationExpires user = None /\
    User.googleId user = None /\
    exists token,
      body r = JObj [("status", JStr "success");
                     ("token", JStr token);
                     ("data", JObj [("user", signup_projection user)])] /\
      lookup "isEmailVerified" (signup_projection user) = Some (JBool true).
Proof.
  intros H Hcode.
  destruct (signup_created E now req s H Hcode)
    as [b [token [Hb [Hs' [Htok Hr]]]]].
  exists (User.with_id (nextOid s) (hash_password E (signup_fields b))).
  rewrite Hs', Hr. simpl docs.
  repeat (split; [reflexivity|]).
  exists token. split; [reflexivity|].
  unfold signup_projection, str, prop. simpl.
  destruct (Body.fullName b), (Body.email b), (Body.role b); reflexivity.
Qed.

End RegistrationPayload.

(** [bob] registers: his payload, and his record in the store. *)
Lemma signup_response_hides_password_witness :
  exists token user,
    In user [Demo.alice; Demo.bob] /\
    body Demo.bob_response =
      JObj [("status", JStr "success");
            ("token", JStr token);
            ("data", JObj [("user", signup_projection user)])] /\
    (forall k, In k (keys (signup_projection user)) ->
       In k ["id"; "fullName"; "email"; "role"; "isEmailVerified"]) /\
    ~ In "password" (keys (body Demo.bob_response)) /\
    forall b other again s2 r2,
      Some Demo.bob_registration = Some b ->
      Req.body again = Some (Body.with_password other b) ->
      signup Demo.env 5000 again Demo.store = (s2, Ok (Sent r2)) ->
      statusCode r2 = 201 ->
      r2 = Demo.bob_response.
Proof.
  exact (@signup_response_hides_password Demo.env 5000
           (Demo.json_request Demo.bob_registration) Demo.store
           (mkStore [Demo.alice; Demo.bob] 9%N) Demo.bob_response
           eq_refl eq_refl).
Defined.

Lemma signup_marks_verified_witness :
  exists user,
    [Demo.alice; Demo.bob] = [Demo.alice; user] /\
    User.isEmailVerified user = true /\
    User.emailVerificationToken user = None /\
    User.emailVerificationExpires user = None /\
    User.googleId user = None.
Proof.
  destruct (@signup_marks_verified Demo.env 5000
              (Demo.json_request Demo.bob_registration) Demo.store
              (mkStore [Demo.alice; Demo.bob] 9%N) Demo.bob_response
              eq_refl eq_refl)
    as [user [H1 [H2 [H3 [H4 [H5 _]]]]]].
  exists user. repeat split; assumption.
Defined.

(** ** The request boundary *)

Section RequestBoundary.

Variable E : Env.

Lemma sent_in_envelope (s : Store) (code : Z) (b : Json) :
  is_envelope b = true -> 200 <= code < 600 ->
  answers_in_envelope (s, Ok (Sent (mkResponse code b))).
Proof. intros Hb Hc. exists (mkResponse code b). now repeat split. Qed.

(** Runs a handler through every branch of its body and of its [catch]. *)
Ltac step_handler :=
  cbv beta iota delta
    [try_catch bind ret throw lift respond destructure_body db
     User_findOne User_findById User_create user_save
     user_generatePasswordResetToken].

Ltac branch_handler :=
  match goal with
  | |- context [match ?x with _ => _ end] =>
      lazymatch x with
      | context [match _ with _ => _ end] => fail
      | _ => destruct x
      end
  end.

Ltac run_handler :=
  step_handler; repeat (branch_handler; step_handler);
  (apply sent_in_envelope; [reflexivity | lia]).

Lemma signup_in_envelope (now : Z) (req : Req.t) (s : Store) :
  answers_in_envelope (signup E now req s).
Proof. unfold signup. run_handler. Qed.

Lemma verifyEmail_in_envelope (now : Z) (req : Req.t) (s : Store) :
  answers_in_envelope (verifyEmail E now req s).
Proof. unfold verifyEmail. run_handler. Qed.

Lemma forgotPassword_in_envelope (now : Z) (req : Req.t) (s : Store) :
  answers_in_envelope (forgotPassword E now req s).
Proof. unfold forgotPassword. run_handler. Qed.

Lemma resetPassword_in_envelope (now : Z) (req : Req.t) (s : Store) :
  answers_in_envelope (resetPassword E now req s).
Proof. unfold resetPassword. run_handler. Qed.

Lemma login_in_envelope (now : Z) (req : Req.t) (s : Store) :
  answers_in_envelope (login E now req s).
Proof. unfold login. run_handler. Qed.

Lemma protect_in_envelope_or_next (now : Z) (req : Req.t) (s : Store) :
  answers_in_envelope (protect E now req s) \/
  exists u, snd (protect E now req s) = Ok (Next (Req.with_user u req)).
Proof.
  unfold protect.
  step_handler; repeat (branch_handler; step_handler);
  first [ left; (apply sent_in_envelope; [reflexivity | lia])
        | right; eexists; reflexivity ].
Qed.

(** C9, as the controller has it.  Each of the handlers with a
    [try]/[catch] ([signup], [verifyEmail], [forgotPassword],
    [resetPassword], [login]) answers every request, on every store and
    with every behaviour of its collaborators, with a response in the
    standard envelope and an HTTP status code: no error escapes them.
    [protect] either answers in the envelope or attaches the identity and
    hands the request on.  [googleCallback] answers a provider error in
    the envelope and otherwise, once the token is issued, redirects to
    the frontend instead of sending an envelope. *)
Theorem handlers_answer_in_envelope (now : Z) (req : Req.t) (s : Store) :
  answers_in_envelope (signup E now req s) /\
  answers_in_envelope (verifyEmail E now req s) /\
  answers_in_envelope (forgotPassword E now req s) /\
  answers_in_envelope (resetPassword E now req s) /\
  answers_in_envelope (login E now req s) /\
  (answers_in_envelope (protect E now req s) \/
   exists u, snd (protect E now req s) = Ok (Next (Req.with_user u req))) /\
  (forall e user,
     answers_in_envelope (googleCallback E now (Some e) user s)) /\
  (forall user,
     match signToken E now (option_map User._id user) with
     | Ok token =>
         googleCallback E now None user s =
         (s, Ok (Redirect (FRONTEND_URL E ++ "/auth/success?token=" ++ token)))
     | Throw _ => True
     end).
Proof.
  split; [apply signup_in_envelope|].
  split; [apply verifyEmail_in_envelope|].
  split; [apply forgotPassword_in_envelope|].
  split; [apply resetPassword_in_envelope|].
  split; [apply login_in_envelope|].
  split; [apply protect_in_envelope_or_next|].
  split.
  - intros e user. apply sent_in_envelope; [reflexivity | lia].
  - intros user. unfold googleCallback, bind, lift.
    destruct (signToken E now (option_map User._id user)); [reflexivity|exact I].
Qed.

End RequestBoundary.

(** C9, as stated, fails: the handler of [/google/callback] answers a
    successful provider login with a redirect that carries the token, not
    with a response in the envelope. *)
Lemma handlers_answer_in_envelope_counterexample :
  googleCallback Demo.env 5000 None (Some Demo.alice) Demo.store =
  (Demo.store,
   Ok (Redirect ("http://localhost:5173/auth/success?token="
                 ++ Demo.alice_token))) /\
  ~ answers_in_envelope
      (googleCallback Demo.env 5000 None (Some Demo.alice) Demo.store).
Proof.
  split; [reflexivity|].
  intros [r [H _]]. discriminate H.
Qed.

(** Without a configured secret the token library throws; [signup]
    catches the error, the callback of [googleCallback] does not. *)
Example signup_unconfigured :
  snd (signup (Demo.env_with None Demo.mailer) 5000
         (Demo.json_request Demo.bob_registration) Demo.store) =
  Ok (Sent (mkResponse 400
              (error_body "secretOrPrivateKey must have a value"))).
Proof. reflexivity. Qed.

Example googleCallback_unconfigured :
  googleCallback (Demo.env_with None Demo.mailer) 5000 None
    (Some Demo.alice) Demo.store =
  (Demo.store, Throw "secretOrPrivateKey must have a value").
Proof. reflexivity. Qed.

(** ** The session list *)

Section SessionBuckets.

Import Sessions.

Variables dayOfMonth monthName : option string -> string -> string.

Local Abbreviation fmt := (format dayOfMonth monthName).

Lemma status_is_spec (k : string) (session : Session) :
  status_is k session = true <-> status session = Some k.
Proof.
  unfold status_is. destruct (status session) as [x|].
  - rewrite String.eqb_eq. split; [now intros ->|now intros [= ->]].
  - split; discriminate.
Qed.

(** The three tests of the loop exclude one another and leave nothing
    out. *)
Lemma one_bucket (session : Session) :
  (status_is "ongoing" session = true /\
   status_is "completed" session = false /\
   goes_upcoming session = false) \/
  (status_is "ongoing" session = false /\
   status_is "completed" session = true /\
   goes_upcoming session = false) \/
  (status_is "ongoing" session = false /\
   status_is "completed" session = false /\
   goes_upcoming session = true).
Proof.
  unfold goes_upcoming, status_is.
  destruct (status session) as [x|]; [|right; right; now repeat split].
  destruct (String.eqb_spec x "ongoing") as [->|_].
  - left. now repeat split.
  - right. destruct (x =? "completed")%string; [left|right]; now repeat split.
Qed.

(** The loop, from any state of the three buckets. *)
Lemma fold_visit (l : list (option Session)) (acc : Categorized) :
  fold_left (visit dayOfMonth monthName) l acc =
  mkCategorized
    (ongoing acc ++ map fmt (filter (status_is "ongoing") (present l)))
    (previous acc ++ map fmt (filter (status_is "completed") (present l)))
    (upcoming acc ++ map fmt (filter goes_upcoming (present l))).
Proof.
  revert acc. induction l as [|[session|] l IH]; intros acc.
  - simpl. rewrite !app_nil_r. now destruct acc.
  - cbn [fold_left present filter]. rewrite IH. unfold visit.
    destruct (one_bucket session) as [[H1 [H2 H3]]|[[H1 [H2 H3]]|[H1 [H2 H3]]]];
      rewrite H1, ?H2, H3; cbn [ongoing previous upcoming map];
      rewrite <- ?app_assoc; reflexivity.
  - cbn [fold_left present]. rewrite IH. reflexivity.
Qed.

Lemma three_way_permutation {A} (p q r : A -> bool) (l : list A) :
  (forall x,
     (p x = true /\ q x = false /\ r x = false) \/
     (p x = false /\ q x = true /\ r x = false) \/
     (p x = false /\ q x = false /\ r x = true)) ->
  Permutation (filter p l ++ filter q l ++ filter r l) l.
Proof.
  intros H. induction l as [|a l IH]; [constructor|].
  cbn [filter].
  destruct (H a) as [[H1 [H2 H3]]|[[H1 [H2 H3]]|[H1 [H2 H3]]]];
    rewrite H1, H2, H3.
  - cbn [app]. now constructor.
  - symmetry. apply Permutation_cons_app. now symmetry.
  - symmetry. rewrite app_assoc. apply Permutation_cons_app.
    rewrite <- app_assoc. now symmetry.
Qed.

(** C10. The categorisation of a fetched list is a partition of its
    sessions: the null entries are skipped; the ongoing bucket holds, in
    order, the sessions whose status is "ongoing", the previous bucket
    those whose status is "completed", the upcoming bucket all the
    others, whatever their status and also without one; each session
    passes exactly one of the three tests, so the three buckets together
    are a rearrangement of the formatted sessions, each placed once. *)
Theorem categorize_partition (allSessions : list (option Session)) :
  let buckets := categorize dayOfMonth monthName allSessions in
  ongoing buckets =
    map fmt (filter (status_is "ongoing") (present allSessions)) /\
  previous buckets =
    map fmt (filter (status_is "completed") (present allSessions)) /\
  upcoming buckets =
    map fmt (filter goes_upcoming (present allSessions)) /\
  Permutation (ongoing buckets ++ previous buckets ++ upcoming buckets)
    (map fmt (present allSessions)) /\
  (forall entry, In (Some entry) allSessions <-> In entry (present allSessions)) /\
  forall session,
    (status_is "ongoing" session = true <-> status session = Some "ongoing") /\
    (status_is "completed" session = true <->
     status session = Some "completed") /\
    (goes_upcoming session = true <->
     status session <> Some "ongoing" /\ status session <> Some "completed").
Proof.
  intros buckets. unfold buckets, categorize. rewrite fold_visit.
  cbn [ongoing previous upcoming app].
  repeat split; try reflexivity.
  - rewrite <- !map_app. apply Permutation_map.
    apply three_way_permutation. apply one_bucket.
  - induction allSessions as [|[x|] l IH]; cbn [present In]; [tauto| |].
    + intros [[= ->]|H]; [now left|right; now apply IH].
    + intros [[=]|H]. now apply IH.
  - induction allSessions as [|[x|] l IH]; cbn [present In]; [tauto| |].
    + intros [->|H]; [now left|right; now apply IH].
    + intros H. right. now apply IH.
  - apply status_is_spec.
  - apply status_is_spec.
  - apply status_is_spec.
  - apply status_is_spec.
  - unfold goes_upcoming in H. apply andb_true_iff in H.
    rewrite <- status_is_spec. destruct H as [H _].
    intros C. rewrite C in H. discriminate.
  - unfold goes_upcoming in H. apply andb_true_iff in H.
    rewrite <- status_is_spec. destruct H as [_ H].
    intros C. rewrite C in H. discriminate.
  - intros [H1 H2]. unfold goes_upcoming.
    rewrite <- status_is_spec in H1, H2.
    destruct (status_is "ongoing" session), (status_is "completed" session);
      simpl; congruence.
Qed.

End SessionBuckets.

(** A fetched list with a null entry and one session of each kind. *)
Example categorize_example :
  let session (i : string) (st : option string) :=
    Sessions.mkSession i None None None None None None st in
  map Sessions.f_id
    (Sessions.ongoing
       (Sessions.categorize (fun _ _ => "1") (fun _ _ => "January")
          [Some (session "a" (Some "cancelled")); None;
           Some (session "b" (Some "ongoing"));
           Some (session "c" None);
           Some (session "d" (Some "completed"))])) = ["b"] /\
  map Sessions.f_id
    (Sessions.previous
       (Sessions.categorize (fun _ _ => "1") (fun _ _ => "January")
          [Some (session "a" (Some "cancelled")); None;
           Some (session "b" (Some "ongoing"));
           Some (session "c" None);
           Some (session "d" (Some "completed"))])) = ["d"] /\
  map Sessions.f_id
    (Sessions.upcoming
       (Sessions.categorize (fun _ _ => "1") (fun _ _ => "January")
          [Some (session "a" (Some "cancelled")); None;
           Some (session "b" (Some "ongoing"));
           Some (session "c" None);
           Some (session "d" (Some "completed"))])) = ["a"; "c"].
Proof. repeat split. Qed.

(* ------------------------------------------------------------------ *)
(** * Scenarios *)

(** Register [alice], log in, mistype the password, ask for a reset,
    reset, and log in again with the new and with the old password. *)
Example scenario_register :
  signup Demo.env 5000
    (Demo.json_request
       (Body.mk (Some "Alice") (Some "alice@example.com")
          (Some "Secret123!") (Some "student") None None None))
    (mkStore [] 7%N) =
  (Demo.store,
   Ok (Sent (mkResponse 201
               (JObj [("status", JStr "success");
                      ("token", JStr Demo.alice_token);
                      ("data",
                       JObj [("user",
                              JObj [("id", JNum 7);
                                    ("fullName", JStr "Alice");
                                    ("email", JStr "alice@example.com");
                                    ("role", JStr "student");
                                    ("isEmailVerified", JBool true)])])])))).
Proof. reflexivity. Qed.

Example scenario_login :
  status_of (login Demo.env 6000
               (Demo.json_request
                  (Demo.credentials "alice@example.com" "Secret123!"))
               Demo.store) = Some 200 /\
  login Demo.env 6000
    (Demo.json_request (Demo.credentials "alice@example.com" "secret123"))
    Demo.store = (Demo.store, Ok (Sent InvalidCredentialsError)) /\
  login Demo.env 6000
    (Demo.json_request (Demo.credentials "alice@example.com" ""))
    Demo.store = (Demo.store, Ok (Sent MissingCredentialsError)).
Proof. repeat split. Qed.

Example scenario_forgot :
  forgotPassword Demo.env 0
    (Demo.json_request (Demo.credentials "alice@example.com" ""))
    Demo.store =
  (mkStore [Demo.alice_ticketed] 8%N,
   Ok (Sent (mkResponse 200
               (success_body "Password reset link sent to email")))) /\
  forgotPassword Demo.env 0
    (Demo.json_request (Demo.credentials "nobody@example.com" ""))
    Demo.store = (Demo.store, Ok (Sent IdentityNotFoundError)).
Proof. split; reflexivity. Qed.

Example scenario_reset :
  resetPassword Demo.env 599999
    (Req.mk None "r4nd0m" (Some (Demo.credentials "" "N3wSecret!")) None)
    (mkStore [Demo.alice_ticketed] 8%N) =
  (mkStore [User.with_password (Some "$N3wSecret!") Demo.alice] 8%N,
   Ok (Sent (mkResponse 200 (success_body "Password reset successfully")))) /\
  resetPassword Demo.env 600000
    (Req.mk None "r4nd0m" (Some (Demo.credentials "" "N3wSecret!")) None)
    (mkStore [Demo.alice_ticketed] 8%N) =
  (mkStore [Demo.alice_ticketed] 8%N, Ok (Sent InvalidOrExpiredTokenError)) /\
  status_of (login Demo.env 700000
               (Demo.json_request
                  (Demo.credentials "alice@example.com" "N3wSecret!"))
               (mkStore [User.with_password (Some "$N3wSecret!") Demo.alice]
                  8%N)) = Some 200 /\
  status_of (login Demo.env 700000
               (Demo.json_request
                  (Demo.credentials "alice@example.com" "Secret123!"))
               (mkStore [User.with_password (Some "$N3wSecret!") Demo.alice]
                  8%N)) = Some 401.
Proof. repeat split. Qed.

(** What [protect] reads from the [Authorization] header. *)
Example scenario_bearer :
  bearer (Req.mk None "" None None) = None /\
  bearer (Req.mk (Some "Bearer") "" None None) = None /\
  bearer (Req.mk (Some "Bearer abc.def") "" None None) = Some "abc.def" /\
  bearer (Req.mk (Some "Bearer  abc") "" None None) = Some "" /\
  bearer (Req.mk (Some "Basic abc") "" None None) = None /\
  protect Demo.env 6000 (Req.mk (Some "Bearer  abc") "" None None) Demo.store
    = (Demo.store, Ok (Sent UnauthenticatedError)) /\
  protect Demo.env 6000 (Req.mk (Some "Bearer abc.def") "" None None)
    Demo.store = (Demo.store, Ok (Sent InvalidTokenError)).
Proof. repeat split. Qed.

(** [alice]'s token at the last second of its life, at its expiry, and
    after her record is gone. *)
Example scenario_protect :
  protect Demo.env 3604999 (Demo.bearer_request Demo.alice_token) Demo.store
    = (Demo.store,
       Ok (Next (Req.with_user Demo.alice
                   (Demo.bearer_request Demo.alice_token)))) /\
  protect Demo.env 3605000 (Demo.bearer_request Demo.alice_token) Demo.store
    = (Demo.store, Ok (Sent InvalidTokenError)) /\
  protect Demo.env 6000 (Demo.bearer_request Demo.alice_token)
    (mkStore [] 8%N) = (mkStore [] 8%N, Ok (Sent StaleIdentityError)).
Proof. repeat split. Qed.

(* ------------------------------------------------------------------ *)
(** * The rest of the controller and of the Sessions page *)

(** ** The Google strategy *)

(** The profile passport hands to the verify callback of the strategy:
    [profile.id], the [value]s of [profile.emails] and [profile.photos]
    (either array may be missing), and [profile.displayName]. *)
Module Profile.
Record t : Type := mk {
  id : string;
  emails : option (list string);
  displayName : option string;
  photos : option (list string)
}.
End Profile.

(** [values[0].value]: a [TypeError] when the array is missing or empty. *)
Definition first_value (values : option (list string)) : Result string :=
  match values with
  | None => Throw "Cannot read properties of undefined (reading '0')"
  | Some [] => Throw "Cannot read properties of undefined (reading 'value')"
  | Some (v :: _) => Ok v
  end.

(** [{ googleId: profile.id }] *)
Definition by_googleId (g : string) (u : User.t) : bool :=
  match User.googleId u with
  | Some x => String.eqb x g
  | None => false
  end.

(** What the verify callback passes to [done]: an error, or the
    identity. *)
Inductive Done : Type :=
| DoneUser (user : User.t)
| DoneError (error : JsError).

Section GoogleStrategy.

Variable E : Env.

(** The document the verify callback hands to [User.create]. *)
Definition google_fields (profile : Profile.t) (email photo : string)
    : User.t :=
  User.mk 0%N (Some (Profile.id profile)) (Profile.displayName profile)
    (Some email) None
    (Some "student") (* Default role, can be updated later *)
    None None None (Some photo) true None None None None.

(** The verify callback of [new GoogleStrategy(...)]. *)
Definition googleVerify (profile : Profile.t) : M Done :=
  try_catch
    (user <- User_findOne E (by_googleId (Profile.id profile)) ;;
     match user with
     | Some user => ret (DoneUser user)
     | None =>
         email <- lift (first_value (Profile.emails profile)) ;;
         photo <- lift (first_value (Profile.photos profile)) ;;
         user <- User_create E (google_fields profile email photo) ;;
         ret (DoneUser user)
     end)
    (fun error => ret (DoneError error)).

(** [/google/callback]: passport runs the verify callback.  Its
    [done(null, user)] calls the callback of [googleCallback] at once,
    inside the [try] of the verify callback, so that what this callback
    throws is caught there too; [done(error, null)] in the [catch] makes
    passport call the callback of [googleCallback] with the error. *)
Definition googleLogin (now : Z) (profile : Profile.t) : M Outcome :=
  try_catch
    (user <- User_findOne E (by_googleId (Profile.id profile)) ;;
     match user with
     | Some user => googleCallback E now None (Some user)
     | None =>
         email <- lift (first_value (Profile.emails profile)) ;;
         photo <- lift (first_value (Profile.photos profile)) ;;
         user <- User_create E (google_fields profile email photo) ;;
         googleCallback E now None (Some user)
     end)
    (fun error => googleCallback E now (Some error) None).

End GoogleStrategy.

(** ** Invariants of the store *)

(** Every stored id is below the next id to be given out. *)
Definition ids_fresh (s : Store) : Prop :=
  forall u, In u (docs s) -> (User._id u < nextOid s)%N.

(** No two records share an id. *)
Definition ids_unique (s : Store) : Prop := NoDup (map User._id (docs s)).

(** No two records share an email. *)
Definition emails_unique (s : Store) : Prop :=
  NoDup (map User.email (docs s)).

Definition well_formed (s : Store) : Prop :=
  ids_fresh s /\ ids_unique s /\ emails_unique s.

(** The store with the record of the id of [u] replaced by [u']. *)
Definition replaced (u u' : User.t) (s : Store) : Store :=
  mkStore (map (fun v => if N.eqb (User._id v) (User._id u) then u' else v)
             (docs s)) (nextOid s).

(** The store with [u] inserted under the next id. *)
Definition inserted (u : User.t) (s : Store) : Store :=
  mkStore (docs s ++ [User.with_id (nextOid s) u]) (N.succ (nextOid s)).

(* ------------------------------------------------------------------ *)
(** * Further theorems *)

(** Unfolds the calls of a handler and splits on every branch it takes,
    keeping what each test found. *)
Ltac unfold_calls :=
  cbv beta iota zeta delta
    [fst snd try_catch bind ret throw lift respond destructure_body db
     User_findOne User_findById User_create user_save
     user_generatePasswordResetToken].

Ltac case_call :=
  match goal with
  | |- context [match ?x with _ => _ end] =>
      lazymatch x with
      | context [match _ with _ => _ end] => fail
      | _ => destruct x eqn:?
      end
  end.

Ltac all_paths := unfold_calls; repeat (case_call; unfold_calls).

(** ** Lists and queries *)

Lemma option_eqb_eq (a b : option string) :
  option_eqb a b = true <-> a = b.
Proof.
  destruct a as [x|], b as [y|]; simpl; split; try discriminate;
    try reflexivity.
  - intros H. apply String.eqb_eq in H. now subst.
  - intros [= ->]. apply String.eqb_refl.
Qed.

Lemma NoDup_map_injective {A B} (f : A -> B) (l : list A) (x y : A) :
  NoDup (map f l) -> In x l -> In y l -> f x = f y -> x = y.
Proof.
  induction l as [|a l IH]; simpl; [tauto|].
  intros Hnd Hx Hy Hf. inversion Hnd as [|? ? Hnotin Hnd']; subst.
  destruct Hx as [->|Hx], Hy as [->|Hy].
  - reflexivity.
  - elim Hnotin. rewrite Hf. now apply in_map.
  - elim Hnotin. rewrite <- Hf. now apply in_map.
  - now apply IH.
Qed.

Lemma find_first_of {A} (q : A -> bool) (l : list A) (y : A) :
  In y l -> q y = true -> (forall z, In z l -> q z = true -> z = y) ->
  find q l = Some y.
Proof.
  intros Hin Hq Honly.
  destruct (find_some_of_in q l y Hin Hq) as [z [Hz [Hzin Hzq]]].
  now rewrite Hz, (Honly z Hzin Hzq).
Qed.

Lemma find_by_id (s : Store) (u : User.t) :
  ids_unique s -> In u (docs s) -> document s (Some (User._id u)) = Some u.
Proof.
  intros Hnd Hin. unfold document. apply find_first_of.
  - exact Hin.
  - apply N.eqb_refl.
  - intros z Hz Hq. apply N.eqb_eq in Hq.
    exact (NoDup_map_injective User._id (docs s) z u Hnd Hz Hin Hq).
Qed.

(** ** The two writes to the store keep it well formed *)

Lemma inserted_ids (u : User.t) (s : Store) :
  ids_fresh s /\ ids_unique s ->
  ids_fresh (inserted u s) /\ ids_unique (inserted u s).
Proof.
  intros [Hfresh Hids]. unfold inserted. split.
  - intros v Hv. simpl in Hv. apply in_app_or in Hv. simpl.
    destruct Hv as [Hv|[<-|[]]].
    + specialize (Hfresh v Hv). lia.
    + simpl. lia.
  - unfold ids_unique. simpl. rewrite map_app. simpl.
    apply Permutation_NoDup with (l := nextOid s :: map User._id (docs s)).
    + apply Permutation_cons_append.
    + constructor; [|exact Hids].
      intros Hin. apply in_map_iff in Hin. destruct Hin as [v [Hv Hvin]].
      specialize (Hfresh v Hvin). lia.
Qed.

Lemma inserted_well_formed (u : User.t) (s : Store) :
  well_formed s ->
  (forall v, In v (docs s) -> User.email v <> User.email u) ->
  well_formed (inserted u s).
Proof.
  intros [Hfresh [Hids Hemails]] Hnew.
  destruct (inserted_ids u (conj Hfresh Hids)) as [Hfresh' Hids'].
  split; [exact Hfresh'|split; [exact Hids'|]].
  unfold emails_unique, inserted. simpl. rewrite map_app. simpl.
  apply Permutation_NoDup
    with (l := User.email u :: map User.email (docs s)).
  - apply Permutation_cons_append.
  - constructor; [|exact Hemails].
    intros Hin. apply in_map_iff in Hin. destruct Hin as [v [Hv Hvin]].
    exact (Hnew v Hvin Hv).
Qed.

Lemma replaced_ids (u u' : User.t) (s : Store) :
  User._id u' = User._id u ->
  map User._id (docs (replaced u u' s)) = map User._id (docs s).
Proof.
  intros Hid. unfold replaced. simpl. rewrite map_map.
  apply map_ext. intros v.
  destruct (N.eqb_spec (User._id v) (User._id u)); congruence.
Qed.

Lemma replaced_in (u u' : User.t) (s : Store) (v : User.t) :
  In v (docs (replaced u u' s)) ->
  v = u' \/ (In v (docs s) /\ User._id v <> User._id u).
Proof.
  unfold replaced. simpl. intros H. apply in_map_iff in H.
  destruct H as [w [Hw Hwin]].
  destruct (N.eqb_spec (User._id w) (User._id u)); [left|right];
    subst; auto.
Qed.

Lemma replaced_well_formed (u u' : User.t) (s : Store) :
  well_formed s -> In u (docs s) ->
  User._id u' = User._id u -> User.email u' = User.email u ->
  well_formed (replaced u u' s).
Proof.
  intros [Hfresh [Hids Hemails]] Hin Hid Hmail.
  split; [|split].
  - intros v Hv. destruct (replaced_in _ _ _ _ Hv) as [->|[Hv' _]].
    + rewrite Hid. exact (Hfresh u Hin).
    + exact (Hfresh v Hv').
  - unfold ids_unique. now rewrite replaced_ids.
  - unfold emails_unique.
    replace (map User.email (docs (replaced u u' s)))
      with (map User.email (docs s)); [exact Hemails|].
    unfold replaced. simpl. rewrite map_map. apply map_ext_in.
    intros v Hv.
    destruct (N.eqb_spec (User._id v) (User._id u)) as [Heq|_];
      [|reflexivity].
    rewrite Hmail.
    now rewrite (NoDup_map_injective User._id (docs s) v u Hids Hv Hin Heq).
Qed.

(** ** What each handler writes *)

Section Effects.

Variable E : Env.

(** [signup] writes nothing, or inserts the record of the body after
    finding no record with its email. *)
Lemma signup_effect (now : Z) (req : Req.t) (s : Store) :
  fst (signup E now req s) = s \/
  exists b,
    Req.body req = Some b /\
    find (by_email (Body.email b)) (docs s) = None /\
    fst (signup E now req s) =
      inserted (hash_password E (signup_fields b)) s.
Proof.
  unfold signup. all_paths; cbn [fst]; try (left; reflexivity);
    right; eexists; repeat split; first [reflexivity | eassumption].
Qed.

(** The handlers that save a loaded record write nothing, or replace a
    stored record by one of the same id and email. *)
Definition saves_one (s s' : Store) : Prop :=
  s' = s \/
  exists u u',
    In u (docs s) /\ User._id u' = User._id u /\
    User.email u' = User.email u /\ s' = replaced u u' s.

Lemma verifyEmail_effect (now : Z) (req : Req.t) (s : Store) :
  saves_one s (fst (verifyEmail E now req s)).
Proof.
  unfold verifyEmail, saves_one. all_paths; cbn [fst];
    try (left; reflexivity).
  all: right; match goal with
       | H : find _ _ = Some ?u |- _ =>
           apply find_some in H; destruct H as [H _];
           exists u; eexists; split; [exact H|]
       end; (split; [|split]); [ | |reflexivity]; reflexivity.
Qed.

Lemma forgotPassword_effect (now : Z) (req : Req.t) (s : Store) :
  saves_one s (fst (forgotPassword E now req s)).
Proof.
  unfold forgotPassword, saves_one. all_paths; cbn [fst];
    try (left; reflexivity).
  all: right; match goal with
       | H : find _ _ = Some ?u |- _ =>
           apply find_some in H; destruct H as [H _];
           exists u; eexists; split; [exact H|]
       end; (split; [|split]); [ | |reflexivity]; reflexivity.
Qed.

Lemma resetPassword_effect (now : Z) (req : Req.t) (s : Store) :
  saves_one s (fst (resetPassword E now req s)).
Proof.
  unfold resetPassword, saves_one. all_paths; cbn [fst];
    try (left; reflexivity).
  all: right; match goal with
       | H : find _ _ = Some ?u |- _ =>
           apply find_some in H; destruct H as [H _];
           exists u; eexists; split; [exact H|]
       end; (split; [|split]); [ | |reflexivity]; reflexivity.
Qed.

End Effects.

(** ** Handlers that only read *)

Section Readers.

Variable E : Env.

Lemma login_reads (now : Z) (req : Req.t) (s : Store) :
  fst (login E now req s) = s.
Proof. unfold login. all_paths; reflexivity. Qed.

Lemma protect_reads (now : Z) (req : Req.t) (s : Store) :
  fst (protect E now req s) = s.
Proof. unfold protect. all_paths; reflexivity. Qed.





End Readers.

(** ** The store stays well formed *)

Section Invariants.

Variable E : Env.

Lemma saves_one_well_formed (s s' : Store) :
  well_formed s -> saves_one s s' -> well_formed s'.
Proof.
  intros Hwf [->|[u [u' [Hin [Hid [Hmail ->]]]]]]; [exact Hwf|].
  now apply replaced_well_formed.
Qed.

(** X2. Every handler of the controller keeps the store well formed:
    when no two records share an id or an email and every id is below
    the next one to be given out, the same holds after [signup],
    [verifyEmail], [forgotPassword], [resetPassword], [login] and
    [protect], whatever the request and the collaborators do. *)
Theorem handlers_keep_well_formed (now : Z) (req : Req.t) (s : Store) :
  well_formed s ->
  well_formed (fst (signup E now req s)) /\
  well_formed (fst (verifyEmail E now req s)) /\
  well_formed (fst (forgotPassword E now req s)) /\
  well_formed (fst (resetPassword E now req s)) /\
  well_formed (fst (login E now req s)) /\
  well_formed (fst (protect E now req s)).
Proof.
  intros Hwf.
  rewrite login_reads, protect_reads.
  split; [|split; [|split; [|split; [|split]]]]; try exact Hwf.
  - destruct (signup_effect E now req s) as [->|[b [_ [Hnone ->]]]];
      [exact Hwf|].
    apply inserted_well_formed; [exact Hwf|].
    intros v Hv Heq.
    pose proof (find_none _ _ Hnone v Hv) as Hq.
    unfold by_email in Hq. simpl in Heq. rewrite Heq in Hq.
    assert (T : option_eqb (Body.email b) (Body.email b) = true)
      by now apply option_eqb_eq.
    congruence.
  - exact (saves_one_well_formed Hwf (verifyEmail_effect E now req s)).
  - exact (saves_one_well_formed Hwf (forgotPassword_effect E now req s)).
  - exact (saves_one_well_formed Hwf (resetPassword_effect E now req s)).
Qed.

End Invariants.

Lemma demo_store_well_formed : well_formed Demo.store.
Proof.
  split; [|split].
  - intros u [<-|[]]. reflexivity.
  - repeat constructor. intros [].
  - repeat constructor. intros [].
Qed.

Lemma handlers_keep_well_formed_witness :
  well_formed
    (fst (signup Demo.env 5000 (Demo.json_request Demo.bob_registration)
            Demo.store)) /\
  well_formed
    (fst (forgotPassword Demo.env 0
            (Demo.json_request (Demo.credentials "alice@example.com" ""))
            Demo.store)).
Proof.
  split.
  - exact (proj1 (@handlers_keep_well_formed Demo.env 5000
                    (Demo.json_request Demo.bob_registration) Demo.store
                    demo_store_well_formed)).
  - exact (proj1 (proj2 (proj2 (@handlers_keep_well_formed Demo.env 0
                    (Demo.json_request
                       (Demo.credentials "alice@example.com" ""))
                    Demo.store demo_store_well_formed)))).
Defined.

(** ** What a granted access and a successful login imply *)

Section Soundness.

Variable E : Env.

Lemma jwt_verify_sound (token : string) (secret : option string) (now : Z)
    (p : Payload.t) :
  jwt_verify E token secret now = Ok p ->
  exists signature key,
    jwt_decode E token = Some (p, signature) /\
    secret = Some key /\ key <> "" /\
    signature = hmac E key p /\
    (forall e, Payload.exp p = Some e -> now / 1000 < e).
Proof.
  unfold jwt_verify.
  destruct (jwt_decode E token) as [[q signature]|]; [|discriminate].
  destruct secret as [key|]; [|discriminate].
  destruct (String.eqb_spec key "") as [|Hkey]; [discriminate|].
  destruct (String.eqb_spec signature (hmac E key q)) as [Hsig|];
    [|discriminate].
  simpl.
  destruct (Payload.exp q) as [e|] eqn:He.
  - destruct (Z.leb_spec e (now / 1000)); [discriminate|].
    intros [= <-]. exists signature, key. repeat split; try assumption.
    intros e' He'. rewrite He in He'. injection He' as <-. assumption.
  - intros [= <-]. exists signature, key. repeat split; try assumption.
    intros e' He'. rewrite He in He'. discriminate.
Qed.

(** X3. [protect] hands a request on only when all of this holds: the
    request carries a non-empty bearer token; the token parses into a
    payload and a signature; a non-empty secret is configured and the
    signature is the one of that payload under it; the expiry of the
    payload, if it has one, lies after the current time in seconds; the
    id of the payload is the id of a stored record; and the request
    handed on is the incoming one with that record as [req.user]. *)
Theorem protect_sound (now : Z) (req req' : Req.t) (s : Store) :
  snd (protect E now req s) = Ok (Next req') ->
  exists token p signature key u,
    bearer req = Some token /\ token <> "" /\
    jwt_decode E token = Some (p, signature) /\
    JWT_SECRET E = Some key /\ key <> "" /\
    signature = hmac E key p /\
    (forall e, Payload.exp p = Some e -> now / 1000 < e) /\
    document s (Payload.id p) = Some u /\
    In u (docs s) /\
    req' = Req.with_user u req.
Proof.
  unfold protect. all_paths; cbn [snd]; intros Hn; try discriminate Hn.
  injection Hn as <-.
  match goal with
  | H : jwt_verify _ _ _ _ = Ok _ |- _ =>
      destruct (jwt_verify_sound _ _ _ H)
        as [signature [key [Hd [Hs [Hk [Hsig Hexp]]]]]]
  end.
  match goal with
  | H : (_ =? "")%string = false |- _ => apply String.eqb_neq in H
  end.
  match goal with
  | H : document _ _ = Some ?u |- _ =>
      assert (Hin : In u (docs s))
  end.
  { match goal with
    | H : document _ ?i = Some _ |- _ =>
        unfold document in H; destruct i; [|discriminate];
        apply find_some in H; tauto
    end. }
  subst signature. do 5 eexists. repeat split; eauto.
Qed.

Lemma login_projection_keys (user : User.t) (k : string) :
  In k (keys (login_projection user)) ->
  In k ["id"; "fullName"; "email"; "role"].
Proof.
  unfold login_projection, str, prop.
  destruct (User.fullName user), (User.email user), (User.role user);
    simpl; intuition.
Qed.

(** X4. [login] answers 200 only when all of this holds: the body
    carries a non-empty email and a non-empty password; a stored record
    has that email; [comparePassword] on that record returned true; the
    token in the response is the one [signToken] issues for the id of that
    record.  The response exposes id, fullName, email and role of the
    record and has no property named password, although the record was
    loaded with its password hash. *)
Theorem login_sound (now : Z) (req : Req.t) (s : Store) (r : Response) :
  snd (login E now req s) = Ok (Sent r) -> statusCode r = 200 ->
  exists b u token,
    Req.body req = Some b /\
    falsy (Body.email b) = false /\ falsy (Body.password b) = false /\
    In u (docs s) /\ User.email u = Body.email b /\
    comparePassword E u (Body.password b) = Ok true /\
    signToken E now (Some (User._id u)) = Ok token /\
    r = mkResponse 200
          (JObj [("status", JStr "success");
                 ("token", JStr token);
                 ("data", JObj [("user", login_projection u)])]) /\
    ~ In "password" (keys (body r)).
Proof.
  unfold login. all_paths; cbn [snd]; intros [= <-]; try discriminate.
  all: intros _.
  match goal with
  | H : find _ _ = Some ?u |- _ =>
      apply find_some in H; destruct H as [Hin Hq];
      apply option_eqb_eq in Hq
  end.
  match goal with
  | H : _ || _ = false |- _ => apply orb_false_elim in H; destruct H
  end.
  match goal with
  | H : negb ?m = false |- _ => destruct m; [|discriminate]
  end.
  do 3 eexists. repeat split; eauto.
  cbn [body keys app]. rewrite !app_nil_r.
  intros [Hk|[Hk|[Hk|[Hk|Hk]]]]; try discriminate.
  apply login_projection_keys in Hk. simpl in Hk. intuition discriminate.
Qed.

End Soundness.

Lemma protect_sound_witness :
  exists token p signature key u,
    bearer (Demo.bearer_request Demo.alice_token) = Some token /\
    token <> "" /\
    jwt_decode Demo.env token = Some (p, signature) /\
    JWT_SECRET Demo.env = Some key /\ key <> "" /\
    signature = hmac Demo.env key p /\
    (forall e, Payload.exp p = Some e -> 6000 / 1000 < e) /\
    document Demo.store (Payload.id p) = Some u /\
    In u (docs Demo.store) /\
    Req.with_user Demo.alice (Demo.bearer_request Demo.alice_token) =
      Req.with_user u (Demo.bearer_request Demo.alice_token).
Proof.
  exact (@protect_sound Demo.env 6000 (Demo.bearer_request Demo.alice_token)
           (Req.with_user Demo.alice (Demo.bearer_request Demo.alice_token))
           Demo.store eq_refl).
Defined.

Lemma login_sound_witness :
  exists b u token,
    Some (Demo.credentials "alice@example.com" "Secret123!") = Some b /\
    falsy (Body.email b) = false /\ falsy (Body.password b) = false /\
    In u (docs Demo.store) /\ User.email u = Body.email b /\
    comparePassword Demo.env u (Body.password b) = Ok true /\
    signToken Demo.env 5000 (Some (User._id u)) = Ok token /\
    mkResponse 200
      (JObj [("status", JStr "success");
             ("token", JStr Demo.alice_token);
             ("data", JObj [("user", login_projection Demo.alice)])]) =
    mkResponse 200
      (JObj [("status", JStr "success");
             ("token", JStr token);
             ("data", JObj [("user", login_projection u)])]) /\
    ~ In "password"
        (keys (JObj [("status", JStr "success");
                     ("token", JStr Demo.alice_token);
                     ("data", JObj [("user", login_projection Demo.alice)])])).
Proof.
  exact (@login_sound Demo.env 5000
           (Demo.json_request
              (Demo.credentials "alice@example.com" "Secret123!"))
           Demo.store _ eq_refl eq_refl).
Defined.

(** ** Issued tokens open the guard *)

Section IssueThenGuard.

Variable E : Env.

Lemma find_app_none {A} (q : A -> bool) (l l' : list A) :
  find q l = None -> find q (l ++ l') = find q l'.
Proof.
  induction l as [|a l IH]; simpl; [reflexivity|].
  destruct (q a); [discriminate|exact IH].
Qed.

Lemma issued_token_verifies (i : option Oid) (key : string)
    (ttl now later : Z) :
  JWT_SECRET E = Some key -> key <> "" -> JWT_EXPIRE E = Some ttl ->
  later / 1000 < now / 1000 + ttl ->
  exists token p,
    signToken E now i = Ok token /\
    jwt_verify E token (JWT_SECRET E) later = Ok p /\
    Payload.id p = i.
Proof.
  intros Hs Hk Ht Hlater.
  do 2 eexists. split; [apply (signToken_configured E _ _ Hs Hk Ht)|].
  rewrite Hs, jwt_verify_signed by assumption.
  destruct (Z.leb_spec (now / 1000 + ttl) (later / 1000)); [lia|].
  split; reflexivity.
Qed.

Lemma protect_accepts (later : Z) (carrier : Req.t) (token : string)
    (p : Payload.t) (u : User.t) (s : Store) :
  db_fault E FindById = None ->
  bearer carrier = Some token -> token <> "" ->
  jwt_verify E token (JWT_SECRET E) later = Ok p ->
  document s (Payload.id p) = Some u ->
  protect E later carrier s = (s, Ok (Next (Req.with_user u carrier))).
Proof.
  intros Hdb Hb Hne Hv Hu.
  rewrite (protect_bearer E later carrier s Hb Hne), Hv.
  now rewrite (User_findById_ok E _ s Hdb), Hu.
Qed.

(** X5. The token of a successful login opens [protect] for the same
    identity: when [login] finds the record of the email and
    [comparePassword] accepts the password, it answers 200 with a token;
    a request that carries this token, at any time before the lifetime
    has run out on the clock of the token, is handed on by [protect]
    with exactly that record attached.  The ids of the store are
    distinct, the secret and the lifetime are configured and the store
    calls complete. *)
Theorem login_then_protect (now ttl : Z) (s : Store) (req : Req.t)
    (b : Body.t) (u : User.t) (key : string) :
  Req.body req = Some b ->
  falsy (Body.email b) = false -> falsy (Body.password b) = false ->
  find (by_email (Body.email b)) (docs s) = Some u ->
  comparePassword E u (Body.password b) = Ok true ->
  JWT_SECRET E = Some key -> key <> "" -> JWT_EXPIRE E = Some ttl ->
  db_fault E FindOne = None -> db_fault E FindById = None ->
  ids_unique s ->
  exists token,
    login E now req s =
      (s, Ok (Sent (mkResponse 200
                      (JObj [("status", JStr "success");
                             ("token", JStr token);
                             ("data",
                              JObj [("user", login_projection u)])])))) /\
    forall later carrier,
      later / 1000 < now / 1000 + ttl ->
      bearer carrier = Some token -> token <> "" ->
      protect E later carrier s =
        (s, Ok (Next (Req.with_user u carrier))).
Proof.
  intros Hb He Hp Hu Hcmp Hs Hk Ht Hfind Hbyid Hids.
  exists (jwt_encode E
            (Payload.mk (Some (User._id u)) (now / 1000)
               (Some (now / 1000 + ttl)),
             hmac E key (Payload.mk (Some (User._id u)) (now / 1000)
                           (Some (now / 1000 + ttl))))).
  split.
  - unfold login, try_catch, destructure_body. rewrite Hb.
    unfold bind at 1, ret. rewrite He, Hp. simpl.
    unfold bind at 1. rewrite (User_findOne_ok E _ s Hfind), Hu.
    unfold bind, lift. rewrite Hcmp. simpl.
    rewrite (signToken_configured E _ _ Hs Hk Ht). reflexivity.
  - intros later carrier Hlater Hcar Hne.
    destruct (issued_token_verifies (Some (User._id u)) now later
                Hs Hk Ht Hlater) as [token [p [Htok [Hv Hid]]]].
    rewrite (signToken_configured E _ _ Hs Hk Ht) in Htok.
    injection Htok as <-.
    apply (@protect_accepts later carrier _ p _ _ Hbyid Hcar Hne Hv).
    rewrite Hid. apply find_by_id; [exact Hids|].
    apply find_some in Hu. tauto.
Qed.

(** X6. The token of a successful registration opens [protect] for the
    new identity: when no record has the email of the body and the
    schema accepts it, [signup] stores the record under the next id and
    answers 201 with a token; on the store it leaves, a request that
    carries this token before the lifetime has run out is handed on by
    [protect] with the new record attached.  Every stored id is below
    the next one; the secret and the lifetime are configured and the
    store calls complete. *)
Theorem signup_then_protect (now ttl : Z) (s : Store) (req : Req.t)
    (b : Body.t) (key : string) :
  let created :=
    User.with_id (nextOid s) (hash_password E (signup_fields b)) in
  let s' := inserted (hash_password E (signup_fields b)) s in
  Req.body req = Some b ->
  find (by_email (Body.email b)) (docs s) = None ->
  validate E (signup_fields b) = None ->
  JWT_SECRET E = Some key -> key <> "" -> JWT_EXPIRE E = Some ttl ->
  db_fault E FindOne = None -> db_fault E Create = None ->
  db_fault E FindById = None ->
  ids_fresh s ->
  exists token,
    signup E now req s =
      (s', Ok (Sent (mkResponse 201
                       (JObj [("status", JStr "success");
                              ("token", JStr token);
                              ("data",
                               JObj [("user",
                                      signup_projection created)])])))) /\
    forall later carrier,
      later / 1000 < now / 1000 + ttl ->
      bearer carrier = Some token -> token <> "" ->
      protect E later carrier s' =
        (s', Ok (Next (Req.with_user created carrier))).
Proof.
  intros created s' Hb Hnone Hval Hs Hk Ht Hfind Hcreate Hbyid Hfresh.
  exists (jwt_encode E
            (Payload.mk (Some (nextOid s)) (now / 1000)
               (Some (now / 1000 + ttl)),
             hmac E key (Payload.mk (Some (nextOid s)) (now / 1000)
                           (Some (now / 1000 + ttl))))).
  split.
  - unfold signup, try_catch, destructure_body. rewrite Hb.
    unfold bind at 1, ret. unfold bind at 1.
    rewrite (User_findOne_ok E _ s Hfind), Hnone.
    unfold bind at 1. unfold User_create, bind at 1.
    rewrite (db_ok E _ s Hcreate), Hval.
    unfold bind, lift. simpl User._id.
    rewrite (signToken_configured E _ _ Hs Hk Ht). reflexivity.
  - intros later carrier Hlater Hcar Hne.
    destruct (issued_token_verifies (Some (nextOid s)) now later
                Hs Hk Ht Hlater) as [token [p [Htok [Hv Hid]]]].
    rewrite (signToken_configured E _ _ Hs Hk Ht) in Htok.
    injection Htok as <-.
    apply (@protect_accepts later carrier _ p _ _ Hbyid Hcar Hne Hv).
    rewrite Hid. unfold document, s', inserted. cbn [docs].
    rewrite find_app_none.
    + cbn [find]. change (User._id (User.with_id (nextOid s)
                            (hash_password E (signup_fields b))))
        with (nextOid s).
      now rewrite N.eqb_refl.
    + apply find_none_iff. intros v Hv'. apply N.eqb_neq.
      specialize (Hfresh v Hv'). lia.
Qed.

(** X7. [signup] is not atomic: when the record has been stored and
    issuing the token then throws, the request is answered 400 with the
    message of that error while the record stays stored; a retry of the
    same registration is refused with "Email already registered". *)
Theorem signup_not_atomic (now : Z) (s : Store) (req : Req.t) (b : Body.t)
    (e : JsError) :
  let s' := inserted (hash_password E (signup_fields b)) s in
  Req.body req = Some b ->
  find (by_email (Body.email b)) (docs s) = None ->
  validate E (signup_fields b) = None ->
  db_fault E FindOne = None -> db_fault E Create = None ->
  signToken E now (Some (nextOid s)) = Throw e ->
  signup E now req s = (s', Ok (Sent (mkResponse 400 (error_body e)))) /\
  forall later,
    signup E later req s' = (s', Ok (Sent DuplicateIdentityError)).
Proof.
  intros s' Hb Hnone Hval Hfind Hcreate Hsign. split.
  - unfold signup, try_catch, destructure_body. rewrite Hb.
    unfold bind at 1, ret. unfold bind at 1.
    rewrite (User_findOne_ok E _ s Hfind), Hnone.
    unfold bind at 1. unfold User_create, bind at 1.
    rewrite (db_ok E _ s Hcreate), Hval.
    unfold bind, lift. simpl User._id. rewrite Hsign. reflexivity.
  - intros later.
    unfold signup, try_catch, destructure_body. rewrite Hb.
    unfold bind, ret. rewrite (User_findOne_ok E _ s' Hfind).
    unfold s', inserted. cbn [docs]. rewrite (find_app_none _ _ _ Hnone).
    cbn [find]. unfold by_email at 1.
    change (User.email (User.with_id (nextOid s)
                          (hash_password E (signup_fields b))))
      with (Body.email b).
    replace (option_eqb (Body.email b) (Body.email b)) with true
      by (symmetry; now apply option_eqb_eq).
    reflexivity.
Qed.

End IssueThenGuard.

Lemma login_then_protect_witness :
  exists token,
    login Demo.env 5000
      (Demo.json_request (Demo.credentials "alice@example.com" "Secret123!"))
      Demo.store =
      (Demo.store,
       Ok (Sent (mkResponse 200
                   (JObj [("status", JStr "success");
                          ("token", JStr token);
                          ("data",
                           JObj [("user",
                                  login_projection Demo.alice)])])))) /\
    forall later carrier,
      later / 1000 < 5000 / 1000 + 3600 ->
      bearer carrier = Some token -> token <> "" ->
      protect Demo.env later carrier Demo.store =
        (Demo.store, Ok (Next (Req.with_user Demo.alice carrier))).
Proof.
  exact (@login_then_protect Demo.env 5000 3600 Demo.store
           (Demo.json_request
              (Demo.credentials "alice@example.com" "Secret123!"))
           (Demo.credentials "alice@example.com" "Secret123!")
           Demo.alice "secret"
           eq_refl eq_refl eq_refl eq_refl eq_refl eq_refl
           ltac:(discriminate) eq_refl eq_refl eq_refl
           (proj1 (proj2 demo_store_well_formed))).
Defined.

Lemma signup_then_protect_witness :
  exists token,
    signup Demo.env 5000 (Demo.json_request Demo.bob_registration)
      Demo.store =
      (mkStore [Demo.alice; Demo.bob] 9%N,
       Ok (Sent (mkResponse 201
                   (JObj [("status", JStr "success");
                          ("token", JStr token);
                          ("data",
                           JObj [("user",
                                  signup_projection Demo.bob)])])))) /\
    forall later carrier,
      later / 1000 < 5000 / 1000 + 3600 ->
      bearer carrier = Some token -> token <> "" ->
      protect Demo.env later carrier (mkStore [Demo.alice; Demo.bob] 9%N) =
        (mkStore [Demo.alice; Demo.bob] 9%N,
         Ok (Next (Req.with_user Demo.bob carrier))).
Proof.
  exact (@signup_then_protect Demo.env 5000 3600 Demo.store
           (Demo.json_request Demo.bob_registration)
           Demo.bob_registration "secret"
           eq_refl eq_refl eq_refl eq_refl ltac:(discriminate) eq_refl
           eq_refl eq_refl eq_refl (proj1 demo_store_well_formed)).
Defined.

(** [bob] registers while no secret is configured. *)
Lemma signup_not_atomic_witness :
  signup (Demo.env_with None Demo.mailer) 5000
    (Demo.json_request Demo.bob_registration) Demo.store =
    (mkStore [Demo.alice; Demo.bob] 9%N,
     Ok (Sent (mkResponse 400
                 (error_body "secretOrPrivateKey must have a value")))) /\
  forall later,
    signup (Demo.env_with None Demo.mailer) later
      (Demo.json_request Demo.bob_registration)
      (mkStore [Demo.alice; Demo.bob] 9%N) =
    (mkStore [Demo.alice; Demo.bob] 9%N, Ok (Sent DuplicateIdentityError)).
Proof.
  exact (@signup_not_atomic (Demo.env_with None Demo.mailer) 5000
           Demo.store (Demo.json_request Demo.bob_registration)
           Demo.bob_registration "secretOrPrivateKey must have a value"
           eq_refl eq_refl eq_refl eq_refl eq_refl eq_refl).
Defined.

(** ** Tickets *)

Section Tickets.

Variable E : Env.

Lemma replaced_twice (u u' u'' : User.t) (s : Store) :
  User._id u' = User._id u ->
  replaced u' u'' (replaced u u' s) = replaced u u'' s.
Proof.
  intros Hid. unfold replaced. simpl. f_equal. rewrite map_map.
  apply map_ext. intros v. rewrite Hid.
  destruct (N.eqb_spec (User._id v) (User._id u)) as [Heq|Hne].
  - rewrite Hid, N.eqb_refl. reflexivity.
  - destruct (N.eqb_spec (User._id v) (User._id u)); [contradiction|].
    reflexivity.
Qed.

Lemma in_replaced (u u' : User.t) (s : Store) :
  In u (docs s) -> In u' (docs (replaced u u' s)).
Proof.
  intros Hin. unfold replaced. simpl. apply in_map_iff.
  exists u. now rewrite N.eqb_refl.
Qed.

(** A query on the store after a replacement finds the new record when
    the new record matches and, before, only records of its id did. *)
Lemma find_replaced (q : User.t -> bool) (u u' : User.t) (s : Store) :
  In u (docs s) -> q u' = true ->
  (forall v, In v (docs s) -> q v = true -> User._id v = User._id u) ->
  find q (docs (replaced u u' s)) = Some u'.
Proof.
  intros Hin Hq Honly. apply find_first_of.
  - now apply in_replaced.
  - exact Hq.
  - intros z Hz Hqz. destruct (replaced_in _ _ _ _ Hz) as [->|[Hz' Hne]].
    + reflexivity.
    + elim Hne. exact (Honly z Hz' Hqz).
Qed.

(** A query on the store after a replacement finds nothing when the new
    record does not match and, before, only records of its id did. *)
Lemma find_replaced_none (q : User.t -> bool) (u u' : User.t) (s : Store) :
  q u' = false ->
  (forall v, In v (docs s) -> q v = true -> User._id v = User._id u) ->
  find q (docs (replaced u u' s)) = None.
Proof.
  intros Hq Honly. apply find_none_iff. intros z Hz.
  destruct (replaced_in _ _ _ _ Hz) as [->|[Hz' Hne]]; [exact Hq|].
  destruct (q z) eqn:Hqz; [|reflexivity].
  elim Hne. exact (Honly z Hz' Hqz).
Qed.

Lemma resetPassword_live (now : Z) (req : Req.t) (b : Body.t) (u : User.t)
    (s : Store) :
  find (by_reset_ticket (sha256hex E (Req.token req)) now) (docs s)
    = Some u ->
  Req.body req = Some b ->
  db_fault E FindOne = None -> db_fault E Save = None ->
  validate E (User.with_reset_ticket None None
                (User.with_password (Body.password b) u)) = None ->
  resetPassword E now req s =
  (replaced u
     (hash_password E
        (User.with_reset_ticket None None
           (User.with_password (Body.password b) u))) s,
   Ok (Sent (mkResponse 200 (success_body "Password reset successfully")))).
Proof.
  intros Hu Hb Hfind Hsave Hval.
  unfold resetPassword, try_catch, bind.
  rewrite (User_findOne_ok E _ s Hfind), Hu, Hb.
  rewrite (user_save_ok E _ true s Hsave Hval). reflexivity.
Qed.

Lemma resetPassword_dead (now : Z) (req : Req.t) (s : Store) :
  find (by_reset_ticket (sha256hex E (Req.token req)) now) (docs s)
    = None ->
  db_fault E FindOne = None ->
  resetPassword E now req s = (s, Ok (Sent InvalidOrExpiredTokenError)).
Proof.
  intros Hnone Hfind. unfold resetPassword, try_catch, bind.
  now rewrite (User_findOne_ok E _ s Hfind), Hnone.
Qed.

Lemma forgotPassword_sent (now : Z) (req : Req.t) (b : Body.t) (u : User.t)
    (s : Store) :
  Req.body req = Some b ->
  find (by_email (Body.email b)) (docs s) = Some u ->
  db_fault E FindOne = None -> db_fault E Save = None ->
  validate E (User.with_reset_ticket (Some (sha256hex E (randomBytes E now)))
                (Some (now + resetTicketTtl E)) u) = None ->
  sendPasswordResetEmail E (Body.email b) (randomBytes E now) = Ok tt ->
  forgotPassword E now req s =
  (replaced u
     (User.with_reset_ticket (Some (sha256hex E (randomBytes E now)))
        (Some (now + resetTicketTtl E)) u) s,
   Ok (Sent (mkResponse 200
               (success_body "Password reset link sent to email")))).
Proof.
  intros Hb Hu Hfind Hsave Hval Hsend.
  unfold forgotPassword, try_catch, destructure_body. rewrite Hb.
  unfold bind at 1, ret. unfold bind at 1.
  rewrite (User_findOne_ok E _ s Hfind), Hu.
  unfold user_generatePasswordResetToken.
  unfold bind at 1. rewrite (user_save_ok E _ false s Hsave Hval).
  unfold bind, lift. rewrite Hsend. reflexivity.
Qed.

(** X8. A reset ticket is dead from its expiry instant on: when every
    record that holds the hash of the token of the request has an expiry
    at or before the current time, and also when no record holds it,
    [resetPassword] answers 400 "Invalid or expired reset token" and
    leaves the store as it is, whatever the body. *)
Theorem resetPassword_expired (now : Z) (req : Req.t) (s : Store) :
  db_fault E FindOne = None ->
  (forall v expires, In v (docs s) ->
     User.passwordResetToken v = Some (sha256hex E (Req.token req)) ->
     User.passwordResetExpires v = Some expires -> expires <= now) ->
  resetPassword E now req s = (s, Ok (Sent InvalidOrExpiredTokenError)).
Proof.
  intros Hfind Hdead. apply resetPassword_dead; [|exact Hfind].
  apply find_none_iff. intros v Hv.
  destruct (by_reset_ticket (sha256hex E (Req.token req)) now v) eqn:Q;
    [|reflexivity].
  apply by_reset_ticket_true in Q. destruct Q as [Htok [t [Ht Hlt]]].
  specialize (Hdead v t Hv Htok Ht). lia.
Qed.

(** X9. The request and the consumption of a reset ticket compose:
    [forgotPassword] for a registered email stores, on the record of that
    email, the hash of the token it mails and the expiry [now] plus the
    lifetime of a ticket; [resetPassword] with the mailed token succeeds
    at every time before that expiry and then leaves the record with the
    hash of the new password and no ticket, and fails from that expiry
    on.  No record of another id holds the same hash; the store calls
    complete, the schema accepts the documents and the mail is sent. *)
Theorem forgotPassword_then_resetPassword (now later : Z) (s : Store)
    (req reset : Req.t) (b b' : Body.t) (u : User.t) :
  let raw := randomBytes E now in
  let ticketed :=
    User.with_reset_ticket (Some (sha256hex E raw))
      (Some (now + resetTicketTtl E)) u in
  let renewed :=
    hash_password E
      (User.with_reset_ticket None None
         (User.with_password (Body.password b') u)) in
  Req.body req = Some b ->
  find (by_email (Body.email b)) (docs s) = Some u ->
  (forall v, In v (docs s) ->
     User.passwordResetToken v = Some (sha256hex E raw) ->
     User._id v = User._id u) ->
  db_fault E FindOne = None -> db_fault E Save = None ->
  validate E ticketed = None ->
  sendPasswordResetEmail E (Body.email b) raw = Ok tt ->
  Req.token reset = raw -> Req.body reset = Some b' ->
  validate E (User.with_reset_ticket None None
                (User.with_password (Body.password b') u)) = None ->
  forgotPassword E now req s =
    (replaced u ticketed s,
     Ok (Sent (mkResponse 200
                 (success_body "Password reset link sent to email")))) /\
  (later < now + resetTicketTtl E ->
   resetPassword E later reset (replaced u ticketed s) =
     (replaced u renewed s,
      Ok (Sent (mkResponse 200
                  (success_body "Password reset successfully"))))) /\
  (now + resetTicketTtl E <= later ->
   resetPassword E later reset (replaced u ticketed s) =
     (replaced u ticketed s, Ok (Sent InvalidOrExpiredTokenError))).
Proof.
  intros raw ticketed renewed Hb Hu Honly Hfind Hsave Hval Hsend Htok Hb'
    Hval'.
  assert (Hin : In u (docs s)) by (apply find_some in Hu; tauto).
  assert (Hq : forall t v, In v (docs s) ->
            by_reset_ticket (sha256hex E raw) t v = true ->
            User._id v = User._id u).
  { intros t v Hv Q. apply by_reset_ticket_true in Q.
    apply (Honly v Hv). tauto. }
  split; [now apply (@forgotPassword_sent now req b u s)|]. split.
  - intros Hlater.
    rewrite (@resetPassword_live later reset b' ticketed
               (replaced u ticketed s)); try assumption.
    + rewrite replaced_twice by reflexivity. reflexivity.
    + rewrite Htok. apply find_replaced; [exact Hin| |apply Hq].
      apply by_reset_ticket_true. split; [reflexivity|].
      eexists. split; [reflexivity|exact Hlater].
  - intros Hlater. apply resetPassword_dead; [|exact Hfind].
    rewrite Htok. apply find_replaced_none; [|apply Hq].
    unfold by_reset_ticket, ticketed. simpl.
    destruct (Z.ltb_spec later (now + resetTicketTtl E)); [lia|].
    apply andb_false_r.
Qed.

End Tickets.

Lemma resetPassword_expired_witness :
  resetPassword Demo.env 600000
    (Req.mk None "r4nd0m" (Some (Demo.credentials "" "N3wSecret!")) None)
    (mkStore [Demo.alice_ticketed] 8%N) =
  (mkStore [Demo.alice_ticketed] 8%N, Ok (Sent InvalidOrExpiredTokenError)).
Proof.
  apply (@resetPassword_expired Demo.env 600000).
  - reflexivity.
  - intros v expires [<-|[]] _ [= <-]. reflexivity.
Defined.

Lemma forgotPassword_then_resetPassword_witness :
  forgotPassword Demo.env 0
    (Demo.json_request (Demo.credentials "alice@example.com" ""))
    Demo.store =
    (mkStore [Demo.alice_ticketed] 8%N,
     Ok (Sent (mkResponse 200
                 (success_body "Password reset link sent to email")))) /\
  resetPassword Demo.env 1000
    (Req.mk None "r4nd0m" (Some (Demo.credentials "" "N3wSecret!")) None)
    (mkStore [Demo.alice_ticketed] 8%N) =
    (mkStore [User.with_password (Some "$N3wSecret!") Demo.alice] 8%N,
     Ok (Sent (mkResponse 200
                 (success_body "Password reset successfully")))).
Proof.
  destruct (@forgotPassword_then_resetPassword Demo.env 0 1000 Demo.store
              (Demo.json_request (Demo.credentials "alice@example.com" ""))
              (Req.mk None "r4nd0m"
                 (Some (Demo.credentials "" "N3wSecret!")) None)
              (Demo.credentials "alice@example.com" "")
              (Demo.credentials "" "N3wSecret!") Demo.alice
              eq_refl eq_refl)
    as [H1 [H2 _]]; try reflexivity.
  - intros v [<-|[]] _. reflexivity.
  - split; [exact H1|exact (H2 eq_refl)].
Defined.

Section MoreTickets.

Variable E : Env.

Lemma by_verification_ticket_true (h : string) (now : Z) (u : User.t) :
  by_verification_ticket h now u = true <->
  User.emailVerificationToken u = Some h /\
  exists t, User.emailVerificationExpires u = Some t /\ now < t.
Proof.
  unfold by_verification_ticket. rewrite andb_true_iff, option_eqb_eq.
  destruct (User.emailVerificationExpires u) as [t|].
  - rewrite Z.ltb_lt. split.
    + intros [H1 H2]. split; [exact H1|]. now exists t.
    + intros [H1 [t' [[= <-] H2]]]. now split.
  - split; [intros [_ H]; discriminate|].
    intros [_ [t [H _]]]. discriminate.
Qed.

(** X10. A verification ticket is single-use, and consuming it touches
    nothing but the verification: for an identity holding a live
    verification ticket that no record of another id holds,
    [verifyEmail] with the matching raw token answers 200 and replaces
    the record by one with the flag true, both ticket fields cleared and
    every other path, the password hash included, as it was; every later
    call with the same raw token answers 400 and leaves the store as it
    is.  The store calls complete and the schema accepts the record. *)
Theorem verifyEmail_single_use (now expires : Z) (s : Store) (req : Req.t)
    (u : User.t) :
  let hashedToken := sha256hex E (Req.token req) in
  let verified := User.with_verification true None None u in
  In u (docs s) ->
  User.emailVerificationToken u = Some hashedToken ->
  User.emailVerificationExpires u = Some expires ->
  now < expires ->
  (forall v, In v (docs s) ->
     User.emailVerificationToken v = Some hashedToken ->
     User._id v = User._id u) ->
  db_fault E FindOne = None -> db_fault E Save = None ->
  (forall v, In v (docs s) -> User._id v = User._id u ->
     validate E (User.with_verification true None None v) = None) ->
  exists first,
    In first (docs s) /\ User._id first = User._id u /\
    verifyEmail E now req s =
      (replaced u (User.with_verification true None None first) s,
       Ok (Sent (mkResponse 200
                   (success_body "Email verified successfully")))) /\
    User.isEmailVerified (User.with_verification true None None first)
      = true /\
    User.password (User.with_verification true None None first)
      = User.password first /\
    forall later again, Req.token again = Req.token req ->
      verifyEmail E later again
        (replaced u (User.with_verification true None None first) s) =
      (replaced u (User.with_verification true None None first) s,
       Ok (Sent (mkResponse 400
                   (error_body "Invalid or expired verification token")))).
Proof.
  intros hashedToken verified Hin Htok Hexp Hlive Honly Hfind Hsave Hval.
  destruct (@find_some_of_in _ (by_verification_ticket hashedToken now)
              (docs s) u Hin) as [y [Hy [Hyin Hyq]]].
  { apply by_verification_ticket_true. split; [exact Htok|].
    now exists expires. }
  apply by_verification_ticket_true in Hyq. destruct Hyq as [Hytok _].
  pose proof (Honly y Hyin Hytok) as Hid.
  exists y. split; [exact Hyin|]. split; [exact Hid|].
  split; [|split; [reflexivity|split; [reflexivity|]]].
  - unfold verifyEmail, try_catch, bind.
    rewrite (User_findOne_ok E _ s Hfind). fold hashedToken. rewrite Hy.
    rewrite (user_save_ok E _ false s Hsave (Hval y Hyin Hid)).
    unfold replaced. simpl User._id. rewrite Hid. reflexivity.
  - intros later again Hsame.
    unfold verifyEmail, try_catch, bind.
    rewrite (User_findOne_ok E _ _ Hfind), Hsame. fold hashedToken.
    rewrite find_replaced_none; [reflexivity|reflexivity|].
    intros v Hv Q. apply by_verification_ticket_true in Q.
    apply (Honly v Hv). tauto.
Qed.

Lemma forgotPassword_registered (now : Z) (s : Store) (req : Req.t)
    (b : Body.t) (u : User.t) :
  Req.body req = Some b ->
  db_fault E FindOne = None ->
  find (by_email (Body.email b)) (docs s) = Some u ->
  exists code,
    status_of (forgotPassword E now req s) = Some code /\
    (code = 200 \/ code = 400).
Proof.
  intros Hb Hfind Hu.
  unfold forgotPassword, try_catch, destructure_body, status_of.
  rewrite Hb. unfold bind at 1, ret. unfold bind at 1.
  rewrite (User_findOne_ok E _ s Hfind), Hu.
  all_paths; cbn [snd statusCode]; eexists; split;
    first [reflexivity | left; reflexivity | right; reflexivity].
Qed.

(** X11. Unlike [login], [forgotPassword] tells whether an email is
    registered: for a body that carries an email, when the lookup
    completes, it answers 404 exactly when no stored record has that
    email; for a registered email the answer is 200 or, when saving or
    mailing throws, 400. *)
Theorem forgotPassword_reveals_registration (now : Z) (s : Store)
    (req : Req.t) (b : Body.t) (address : string) :
  Req.body req = Some b ->
  Body.email b = Some address ->
  db_fault E FindOne = None ->
  (status_of (forgotPassword E now req s) = Some 404 <->
   forall v, In v (docs s) -> User.email v <> Body.email b) /\
  ((exists v, In v (docs s) /\ User.email v = Body.email b) ->
   status_of (forgotPassword E now req s) = Some 200 \/
   status_of (forgotPassword E now req s) = Some 400).
Proof.
  intros Hb _ Hfind.
  assert (Hnone : find (by_email (Body.email b)) (docs s) = None <->
                  forall v, In v (docs s) -> User.email v <> Body.email b).
  { rewrite find_none_iff. split; intros H v Hv.
    - intros Heq. specialize (H v Hv). unfold by_email in H.
      apply option_eqb_eq in Heq. congruence.
    - destruct (by_email (Body.email b) v) eqn:Q; [|reflexivity].
      apply option_eqb_eq in Q. elim (H v Hv Q). }
  destruct (find (by_email (Body.email b)) (docs s)) as [u|] eqn:Hu.
  - destruct (forgotPassword_registered now s req Hb Hfind Hu)
      as [code [Hcode Hor]].
    rewrite Hcode. split.
    + split; [intros [= ->]; lia|].
      intros H. apply Hnone in H. discriminate.
    + intros _. destruct Hor as [->| ->]; [left|right]; reflexivity.
  - assert (H404 : status_of (forgotPassword E now req s) = Some 404).
    { unfold forgotPassword, try_catch, destructure_body, status_of.
      rewrite Hb. unfold bind at 1, ret. unfold bind at 1.
      now rewrite (User_findOne_ok E _ s Hfind), Hu. }
    rewrite H404. split.
    + split; [intros _; now apply Hnone|reflexivity].
    + intros [v [Hv Heq]]. elim (proj1 Hnone eq_refl v Hv Heq).
Qed.

End MoreTickets.

Section TicketReplacement.

Variable E : Env.

(** X12. An identity has at most one reset ticket, the latest: after a
    second [forgotPassword] for the same email the record holds the
    ticket of the second request only, and [resetPassword] with the
    token mailed for the first request fails at every time and leaves
    the store as it is.  The two tokens have different hashes; in the
    store, records with the email, or with the hash of the first token,
    have the id of the record found; the store calls complete, the
    schema accepts the documents and the mails are sent. *)
Theorem forgotPassword_replaces_ticket (t1 t2 later : Z) (s : Store)
    (req old : Req.t) (b : Body.t) (u : User.t) :
  let raw1 := randomBytes E t1 in
  let raw2 := randomBytes E t2 in
  let ticketed1 :=
    User.with_reset_ticket (Some (sha256hex E raw1))
      (Some (t1 + resetTicketTtl E)) u in
  let ticketed2 :=
    User.with_reset_ticket (Some (sha256hex E raw2))
      (Some (t2 + resetTicketTtl E)) u in
  Req.body req = Some b ->
  find (by_email (Body.email b)) (docs s) = Some u ->
  (forall v, In v (docs s) -> User.email v = User.email u ->
     User._id v = User._id u) ->
  (forall v, In v (docs s) ->
     User.passwordResetToken v = Some (sha256hex E raw1) ->
     User._id v = User._id u) ->
  sha256hex E raw1 <> sha256hex E raw2 ->
  db_fault E FindOne = None -> db_fault E Save = None ->
  validate E ticketed1 = None -> validate E ticketed2 = None ->
  sendPasswordResetEmail E (Body.email b) raw1 = Ok tt ->
  sendPasswordResetEmail E (Body.email b) raw2 = Ok tt ->
  Req.token old = raw1 ->
  forgotPassword E t1 req s =
    (replaced u ticketed1 s,
     Ok (Sent (mkResponse 200
                 (success_body "Password reset link sent to email")))) /\
  forgotPassword E t2 req (replaced u ticketed1 s) =
    (replaced u ticketed2 s,
     Ok (Sent (mkResponse 200
                 (success_body "Password reset link sent to email")))) /\
  resetPassword E later old (replaced u ticketed2 s) =
    (replaced u ticketed2 s, Ok (Sent InvalidOrExpiredTokenError)).
Proof.
  intros raw1 raw2 ticketed1 ticketed2 Hb Hu Hmail Honly Hdiff Hfind Hsave
    Hval1 Hval2 Hsend1 Hsend2 Hold.
  assert (Hin : In u (docs s)) by (apply find_some in Hu; tauto).
  assert (Hq : by_email (Body.email b) u = true)
    by (apply find_some in Hu; tauto).
  split; [now apply (@forgotPassword_sent E t1 req b u s)|]. split.
  - rewrite (@forgotPassword_sent E t2 req b ticketed1
               (replaced u ticketed1 s)); try assumption.
    + rewrite replaced_twice by reflexivity. reflexivity.
    + apply find_replaced; [exact Hin|exact Hq|].
      intros v Hv Qv. apply (Hmail v Hv).
      unfold by_email in Hq, Qv. apply option_eqb_eq in Hq, Qv.
      congruence.
  - apply resetPassword_dead; [|exact Hfind].
    rewrite Hold. apply find_replaced_none.
    + unfold by_reset_ticket, ticketed2. simpl.
      destruct (String.eqb_spec (sha256hex E raw2) (sha256hex E raw1));
        [congruence|reflexivity].
    + intros v Hv Q. apply by_reset_ticket_true in Q.
      apply (Honly v Hv). tauto.
Qed.

End TicketReplacement.

Lemma verifyEmail_single_use_witness :
  exists first,
    In first [User.with_verification false (Some "#v3rify") (Some 9000)
                Demo.alice] /\
    User._id first = 7%N /\
    verifyEmail Demo.env 1000 (Req.mk None "v3rify" None None)
      (mkStore [User.with_verification false (Some "#v3rify") (Some 9000)
                  Demo.alice] 8%N) =
      (replaced
         (User.with_verification false (Some "#v3rify") (Some 9000)
            Demo.alice)
         (User.with_verification true None None first)
         (mkStore [User.with_verification false (Some "#v3rify")
                     (Some 9000) Demo.alice] 8%N),
       Ok (Sent (mkResponse 200
                   (success_body "Email verified successfully")))).
Proof.
  destruct (@verifyEmail_single_use Demo.env 1000 9000
              (mkStore [User.with_verification false (Some "#v3rify")
                          (Some 9000) Demo.alice] 8%N)
              (Req.mk None "v3rify" None None)
              (User.with_verification false (Some "#v3rify") (Some 9000)
                 Demo.alice)
              (or_introl eq_refl) eq_refl eq_refl eq_refl)
    as [first [H1 [H2 [H3 _]]]]; try reflexivity.
  - intros v [<-|[]] _. reflexivity.
  - exists first. repeat split; assumption.
Defined.

Lemma forgotPassword_reveals_registration_witness :
  status_of
    (forgotPassword Demo.env 0
       (Demo.json_request (Demo.credentials "nobody@example.com" ""))
       Demo.store) = Some 404 <->
  forall v, In v (docs Demo.store) ->
    User.email v <> Some "nobody@example.com".
Proof.
  exact (proj1 (@forgotPassword_reveals_registration Demo.env 0 Demo.store
                  (Demo.json_request
                     (Demo.credentials "nobody@example.com" ""))
                  (Demo.credentials "nobody@example.com" "")
                  "nobody@example.com" eq_refl eq_refl eq_refl)).
Defined.

(** [Demo.env] with random bytes that change with the time of the
    draw. *)
Definition rotating_env : Env :=
  mkEnv (Some "secret") (Some 3600) "http://localhost:5173"
    (fun key _ => key) Demo.encode Demo.decode Demo.decode_encode
    (fun s => "#" ++ s)
    (fun now => if now =? 0 then "r4nd0m" else "0th3r")
    (fun _ => None) Demo.hash Demo.compare 600000
    (fun _ => None) Demo.mailer.

Lemma forgotPassword_replaces_ticket_witness :
  forgotPassword rotating_env 5000
    (Demo.json_request (Demo.credentials "alice@example.com" ""))
    (mkStore [Demo.alice_ticketed] 8%N) =
    (mkStore [User.with_reset_ticket (Some "#0th3r") (Some 605000)
                Demo.alice] 8%N,
     Ok (Sent (mkResponse 200
                 (success_body "Password reset link sent to email")))) /\
  resetPassword rotating_env 6000
    (Req.mk None "r4nd0m" (Some (Demo.credentials "" "N3wSecret!")) None)
    (mkStore [User.with_reset_ticket (Some "#0th3r") (Some 605000)
                Demo.alice] 8%N) =
    (mkStore [User.with_reset_ticket (Some "#0th3r") (Some 605000)
                Demo.alice] 8%N,
     Ok (Sent InvalidOrExpiredTokenError)).
Proof.
  destruct (@forgotPassword_replaces_ticket rotating_env 0 5000 6000
              Demo.store
              (Demo.json_request (Demo.credentials "alice@example.com" ""))
              (Req.mk None "r4nd0m"
                 (Some (Demo.credentials "" "N3wSecret!")) None)
              (Demo.credentials "alice@example.com" "") Demo.alice
              eq_refl eq_refl)
    as [_ [H2 H3]]; try reflexivity.
  - intros v [<-|[]] _. reflexivity.
  - intros v [<-|[]] _. reflexivity.
  - discriminate.
  - split; [exact H2|exact H3].
Defined.

(** ** The Google strategy *)

Section Google.

Variable E : Env.

Lemma googleVerify_known (profile : Profile.t) (u : User.t) (s : Store) :
  db_fault E FindOne = None ->
  find (by_googleId (Profile.id profile)) (docs s) = Some u ->
  googleVerify E profile s = (s, Ok (DoneUser u)).
Proof.
  intros Hfind Hu. unfold googleVerify, try_catch, bind.
  now rewrite (User_findOne_ok E _ s Hfind), Hu.
Qed.

Lemma googleVerify_creates (profile : Profile.t) (email photo : string)
    (s : Store) :
  first_value (Profile.emails profile) = Ok email ->
  first_value (Profile.photos profile) = Ok photo ->
  find (by_googleId (Profile.id profile)) (docs s) = None ->
  db_fault E FindOne = None -> db_fault E Create = None ->
  validate E (google_fields profile email photo) = None ->
  googleVerify E profile s =
  (inserted (google_fields profile email photo) s,
   Ok (DoneUser (User.with_id (nextOid s)
                   (google_fields profile email photo)))).
Proof.
  intros Hemail Hphoto Hnone Hfind Hcreate Hval.
  unfold googleVerify, try_catch.
  unfold bind at 1. rewrite (User_findOne_ok E _ s Hfind), Hnone.
  unfold bind at 1, lift. rewrite Hemail.
  unfold bind at 1. rewrite Hphoto.
  unfold User_create, bind. rewrite (db_ok E _ s Hcreate), Hval.
  reflexivity.
Qed.

(** X13. The verify callback of the Google strategy finds or creates:
    for a profile whose id no record has, with a first email and a first
    photo, it stores one record under the next id, with that Google id,
    email, name and photo, verified, with the role "student" and without
    a password, and passes it to [done]; on the store it leaves, a
    profile of the same id, whatever else it carries, gets that same
    record and nothing is written.  The store calls complete and the
    schema accepts the document. *)
Theorem googleVerify_find_or_create (profile : Profile.t)
    (email photo : string) (s : Store) :
  let created :=
    User.with_id (nextOid s) (google_fields profile email photo) in
  let s' := inserted (google_fields profile email photo) s in
  first_value (Profile.emails profile) = Ok email ->
  first_value (Profile.photos profile) = Ok photo ->
  find (by_googleId (Profile.id profile)) (docs s) = None ->
  db_fault E FindOne = None -> db_fault E Create = None ->
  validate E (google_fields profile email photo) = None ->
  googleVerify E profile s = (s', Ok (DoneUser created)) /\
  User.googleId created = Some (Profile.id profile) /\
  User.email created = Some email /\
  User.isEmailVerified created = true /\
  User.role created = Some "student" /\
  User.password created = None /\
  forall again, Profile.id again = Profile.id profile ->
    googleVerify E again s' = (s', Ok (DoneUser created)).
Proof.
  intros created s' Hemail Hphoto Hnone Hfind Hcreate Hval.
  split; [|repeat (split; [reflexivity|])].
  - now apply googleVerify_creates.
  - intros again Hid. apply googleVerify_known; [exact Hfind|].
    rewrite Hid. unfold s', inserted. cbn [docs].
    rewrite (find_app_none _ _ _ Hnone). cbn [find].
    unfold by_googleId. simpl. now rewrite String.eqb_refl.
Qed.

(** X14. A profile without a first email or without a first photo, for
    a Google id that no record has, creates nothing: the verify callback
    passes the [TypeError] to [done] and leaves the store as it is, and
    the callback route answers 401 with the message of that error in
    the envelope.  The lookup completes. *)
Theorem googleLogin_malformed_profile (now : Z) (profile : Profile.t)
    (s : Store) (e : JsError) :
  db_fault E FindOne = None ->
  find (by_googleId (Profile.id profile)) (docs s) = None ->
  first_value (Profile.emails profile) = Throw e \/
  (exists email, first_value (Profile.emails profile) = Ok email /\
                 first_value (Profile.photos profile) = Throw e) ->
  googleVerify E profile s = (s, Ok (DoneError e)) /\
  googleLogin E now profile s =
    (s, Ok (Sent (mkResponse 401 (error_body e)))).
Proof.
  intros Hfind Hnone Hbad.
  assert (V : googleVerify E profile s = (s, Ok (DoneError e))).
  { unfold googleVerify, try_catch.
    unfold bind at 1. rewrite (User_findOne_ok E _ s Hfind), Hnone.
    unfold bind at 1, lift.
    destruct Hbad as [He|[email [He Hp]]]; rewrite He; [reflexivity|].
    unfold bind at 1. rewrite Hp. reflexivity. }
  split; [exact V|].
  unfold googleLogin, try_catch.
  unfold bind at 1. rewrite (User_findOne_ok E _ s Hfind), Hnone.
  unfold bind at 1, lift.
  destruct Hbad as [He|[email [He Hp]]]; rewrite He; [reflexivity|].
  unfold bind at 1. rewrite Hp. reflexivity.
Qed.

End Google.

(** [carol] signs in with Google for the first time, and again. *)
Definition carol_profile : Profile.t :=
  Profile.mk "g-123" (Some ["carol@example.com"]) (Some "Carol")
    (Some ["https://lh3.example.com/carol.png"]).

Definition carol : User.t :=
  User.mk 8%N (Some "g-123") (Some "Carol") (Some "carol@example.com")
    None (Some "student") None None None
    (Some "https://lh3.example.com/carol.png") true None None None None.

Lemma googleVerify_find_or_create_witness :
  googleVerify Demo.env carol_profile Demo.store =
    (mkStore [Demo.alice; carol] 9%N, Ok (DoneUser carol)) /\
  forall again, Profile.id again = "g-123" ->
    googleVerify Demo.env again (mkStore [Demo.alice; carol] 9%N) =
    (mkStore [Demo.alice; carol] 9%N, Ok (DoneUser carol)).
Proof.
  destruct (@googleVerify_find_or_create Demo.env carol_profile
              "carol@example.com" "https://lh3.example.com/carol.png"
              Demo.store eq_refl eq_refl eq_refl eq_refl eq_refl eq_refl)
    as [H1 [_ [_ [_ [_ [_ H2]]]]]].
  split; [exact H1|exact H2].
Defined.

Lemma googleLogin_malformed_profile_witness :
  googleVerify Demo.env (Profile.mk "g-456" None (Some "Dave") None)
    Demo.store =
    (Demo.store,
     Ok (DoneError "Cannot read properties of undefined (reading '0')")) /\
  googleLogin Demo.env 5000 (Profile.mk "g-456" None (Some "Dave") None)
    Demo.store =
    (Demo.store,
     Ok (Sent (mkResponse 401
                 (error_body
                    "Cannot read properties of undefined (reading '0')")))).
Proof.
  exact (@googleLogin_malformed_profile Demo.env 5000
           (Profile.mk "g-456" None (Some "Dave") None) Demo.store
           "Cannot read properties of undefined (reading '0')"
           eq_refl eq_refl (or_introl eq_refl)).
Defined.

(** With no secret configured [signToken] throws inside the callback of
    [googleCallback]; the [catch] of the verify callback passes the error
    on and the route answers 401, with [carol] already stored. *)
Example googleLogin_unconfigured :
  googleLogin (Demo.env_with None Demo.mailer) 5000 carol_profile
    Demo.store =
  (mkStore [Demo.alice; carol] 9%N,
   Ok (Sent (mkResponse 401
               (error_body "secretOrPrivateKey must have a value")))).
Proof. reflexivity. Qed.

(** ** The allow-list *)

Lemma includes_in (roles : list string) (r : string) :
  includes roles (Some r) = true <-> In r roles.
Proof.
  unfold includes. rewrite existsb_exists. split.
  - intros [x [Hx Heq]]. apply String.eqb_eq in Heq. now subst.
  - intros H. exists r. split; [exact H|apply String.eqb_refl].
Qed.

(** X16. [restrictTo] hands a request on exactly when the role of
    [req.user] is, letter for letter, one of the listed roles, and then
    hands it on unchanged; an identity without a role and an empty list
    always get 403; and without [req.user], that is without [protect]
    before it, it throws instead of answering. *)
Theorem restrictTo_allow_list (roles : list string) (req : Req.t)
    (s : Store) :
  (Req.user req = None ->
   exists e, restrictTo roles req s = (s, Throw e)) /\
  (forall u, Req.user req = Some u ->
     (restrictTo roles req s = (s, Ok (Next req)) \/
      restrictTo roles req s = (s, Ok (Sent ForbiddenError))) /\
     (restrictTo roles req s = (s, Ok (Next req)) <->
      exists r, User.role u = Some r /\ In r roles) /\
     (User.role u = None \/ roles = [] ->
      restrictTo roles req s = (s, Ok (Sent ForbiddenError)))).
Proof.
  split.
  - intros Hn. unfold restrictTo. rewrite Hn. eexists. reflexivity.
  - intros u Hu. unfold restrictTo. rewrite Hu.
    destruct (User.role u) as [r|] eqn:Hr.
    + destruct (includes roles (Some r)) eqn:Hi.
      * apply includes_in in Hi. simpl. split; [now left|]. split.
        -- split; [intros _; now exists r|reflexivity].
        -- intros [H| ->]; [discriminate|destruct Hi].
      * simpl. split; [now right|]. split.
        -- split; [intros H; discriminate H|].
           intros [r' [[= <-] Hin]]. apply includes_in in Hin. congruence.
        -- reflexivity.
    + simpl. split; [now right|]. split.
      * split; [intros H; discriminate H|]. intros [r [H _]]. discriminate.
      * reflexivity.
Qed.

Lemma restrictTo_allow_list_witness :
  restrictTo ["admin"; "alumni"]
    (Req.with_user Demo.bob (Demo.bearer_request "t")) Demo.store =
    (Demo.store, Ok (Next (Req.with_user Demo.bob (Demo.bearer_request "t"))))
  <-> exists r, User.role Demo.bob = Some r /\ In r ["admin"; "alumni"].
Proof.
  exact (proj1 (proj2 (proj2 (@restrictTo_allow_list ["admin"; "alumni"]
           (Req.with_user Demo.bob (Demo.bearer_request "t")) Demo.store)
           Demo.bob eq_refl))).
Defined.

(* ------------------------------------------------------------------ *)
(** * The Sessions page: state, handlers and rendering *)

Module SessionsPage.

(** What [sessionService.getAllSessions()] settles to: a response, of
    which the page reads [response.data?.sessions] (the data, or the
    sessions in it, may be missing), or an error, of which it reads
    [err.response?.data?.message]. *)
Inductive Fetched : Type :=
| Resolved (sessions : option (option (list (option Sessions.Session))))
| Rejected (message : option string).

(** [response.data?.sessions || []] *)
Definition sessions_of
    (data : option (option (list (option Sessions.Session))))
    : list (option Sessions.Session) :=
  match data with
  | Some (Some l) => l
  | _ => []
  end.

(** The three pieces of state of the component. *)
Record State : Type := mkState {
  sessions : Sessions.Categorized;
  loading : bool;
  error : option string
}.

(** [useState] initial values. *)
Definition initial : State :=
  mkState (Sessions.mkCategorized [] [] []) true None.

(** What the user and the backend do to the page. *)
Inductive Event : Type :=
| Fetch (fetched : Fetched)
| Delete (confirmed deleted : bool) (refetched : Fetched)
| Cancel (confirmed updated : bool) (refetched : Fetched).

(** What the component returns. *)
Inductive View : Type :=
| Spinner
| ErrorPage (message : string)
| Sections (ongoing upcoming previous : list Sessions.Formatted)
    (isAdmin : bool).

Section Page.

Variable dayOfMonth : option string -> string -> string.
Variable monthName : option string -> string -> string.

(** [fetchSessions], run by the effect on mount. *)
Definition fetchSessions (fetched : Fetched) (st : State) : State :=
  match fetched with
  | Resolved data =>
      mkState (Sessions.categorize dayOfMonth monthName (sessions_of data))
        false (error st)
  | Rejected message =>
      mkState (sessions st) false
        (Some (Sessions.or_else message
                 "Failed to load sessions. Please try again later."))
  end.

(** [handleDeleteSession]: [confirmed] is the answer to
    [window.confirm], [deleted] tells whether
    [sessionService.deleteSession] resolved. *)
Definition handleDeleteSession (confirmed deleted : bool)
    (refetched : Fetched) (st : State) : State :=
  if confirmed then
    match deleted, refetched with
    | true, Resolved data =>
        mkState
          (Sessions.categorize dayOfMonth monthName (sessions_of data))
          (loading st) (error st)
    | _, _ =>
        mkState (sessions st) (loading st)
          (Some "Failed to delete session. Please try again later.")
    end
  else st.

(** [handleCancelSession]: [updated] tells whether
    [sessionService.updateSessionStatus(sessionId, 'cancelled')]
    resolved. *)
Definition handleCancelSession (confirmed updated : bool)
    (refetched : Fetched) (st : State) : State :=
  if confirmed then
    match updated, refetched with
    | true, Resolved data =>
        mkState
          (Sessions.categorize dayOfMonth monthName (sessions_of data))
          (loading st) (error st)
    | _, _ =>
        mkState (sessions st) (loading st)
          (Some "Failed to cancel session. Please try again later.")
    end
  else st.

Definition step (st : State) (ev : Event) : State :=
  match ev with
  | Fetch fetched => fetchSessions fetched st
  | Delete confirmed deleted refetched =>
      handleDeleteSession confirmed deleted refetched st
  | Cancel confirmed updated refetched =>
      handleCancelSession confirmed updated refetched st
  end.

Definition run (events : list Event) (st : State) : State :=
  fold_left step events st.

End Page.

(** [user?.role === 'admin'] *)
Definition isAdmin (role : option string) : bool :=
  match role with
  | Some r => String.eqb r "admin"
  | None => false
  end.

(** The three sections, in the order ongoing, upcoming, previous. *)
Definition sections (role : option string) (st : State) : View :=
  Sections (Sessions.ongoing (sessions st))
    (Sessions.upcoming (sessions st))
    (Sessions.previous (sessions st))
    (isAdmin role).

(** The render: the spinner while loading, the error page when [error]
    is truthy, the three sections otherwise; [role] is [user?.role]. *)
Definition render (role : option string) (st : State) : View :=
  if loading st then Spinner
  else
    match error st with
    | Some message =>
        if String.eqb message "" then sections role st
        else ErrorPage message
    | None => sections role st
    end.

End SessionsPage.

(** ** Buckets *)

Section MoreBuckets.

Import Sessions.

Variables dayOfMonth monthName : option string -> string -> string.

Local Abbreviation fmt := (format dayOfMonth monthName).
Local Abbreviation sort := (categorize dayOfMonth monthName).

Lemma categorize_buckets (l : list (option Session)) :
  sort l =
  mkCategorized
    (map fmt (filter (status_is "ongoing") (present l)))
    (map fmt (filter (status_is "completed") (present l)))
    (map fmt (filter goes_upcoming (present l))).
Proof. unfold categorize. now rewrite fold_visit. Qed.

Lemma present_app (l1 l2 : list (option Session)) :
  present (l1 ++ l2) = (present l1 ++ present l2)%list.
Proof.
  induction l1 as [|[x|] l1 IH]; simpl; [reflexivity| |exact IH].
  now rewrite IH.
Qed.

Lemma present_map (g : Session -> Session) (l : list (option Session)) :
  present (map (option_map g) l) = map g (present l).
Proof.
  induction l as [|[x|] l IH]; simpl; [reflexivity| |exact IH].
  now rewrite IH.
Qed.

Lemma filter_map_commute {A} (p : A -> bool) (g : A -> A) (l : list A) :
  (forall x, p (g x) = p x) ->
  filter p (map g l) = map g (filter p l).
Proof.
  intros H. induction l as [|a l IH]; simpl; [reflexivity|].
  rewrite H. destruct (p a); simpl; now rewrite IH.
Qed.

Lemma or_else_not_empty (x : option string) (fallback : string) :
  fallback <> "" -> or_else x fallback <> "".
Proof.
  intros Hf. unfold or_else. destruct x as [s|]; [|exact Hf].
  destruct (String.eqb_spec s ""); assumption.
Qed.

(** X17. The categorisation distributes over concatenation: sorting two
    lists one after the other fills each bucket with the bucket of the
    first list followed by the bucket of the second, so the order of the
    fetched list is kept inside every bucket. *)
Theorem categorize_app (l1 l2 : list (option Session)) :
  ongoing (sort (l1 ++ l2)) = (ongoing (sort l1) ++ ongoing (sort l2))%list /\
  previous (sort (l1 ++ l2)) =
    (previous (sort l1) ++ previous (sort l2))%list /\
  upcoming (sort (l1 ++ l2)) =
    (upcoming (sort l1) ++ upcoming (sort l2))%list.
Proof.
  rewrite !categorize_buckets. cbn [ongoing previous upcoming].
  rewrite present_app, !filter_app, !map_app. repeat split.
Qed.

(** X18. What the buckets show.  A formatted session in the ongoing
    bucket has the status "ongoing", one in the previous bucket the
    status "completed", and one in the upcoming bucket a status that is
    neither and is not empty: the status of the session itself, for
    instance "cancelled", or "upcoming" when the session has none.  No
    formatted session has an empty title, description, venue, location
    or profile image. *)
Theorem bucket_statuses (l : list (option Session)) (f : Formatted) :
  (In f (ongoing (sort l)) -> f_status f = "ongoing") /\
  (In f (previous (sort l)) -> f_status f = "completed") /\
  (In f (upcoming (sort l)) ->
   f_status f <> "ongoing" /\ f_status f <> "completed" /\
   f_status f <> "") /\
  (In f (ongoing (sort l)) \/ In f (previous (sort l)) \/
   In f (upcoming (sort l)) ->
   f_title f <> "" /\ f_description f <> "" /\ f_venue f <> "" /\
   f_location f <> "" /\ f_profileImage f <> "").
Proof.
  rewrite categorize_buckets. cbn [ongoing previous upcoming].
  assert (Hfields : forall x,
            f_title (fmt x) <> "" /\ f_description (fmt x) <> "" /\
            f_venue (fmt x) <> "" /\ f_location (fmt x) <> "" /\
            f_profileImage (fmt x) <> "").
  { intros x. unfold format. cbn.
    repeat split; apply or_else_not_empty; discriminate. }
  repeat split.
  - intros H. apply in_map_iff in H. destruct H as [x [<- Hx]].
    apply filter_In in Hx. destruct Hx as [_ Hs].
    apply status_is_spec in Hs. unfold format. cbn. now rewrite Hs.
  - intros H. apply in_map_iff in H. destruct H as [x [<- Hx]].
    apply filter_In in Hx. destruct Hx as [_ Hs].
    apply status_is_spec in Hs. unfold format. cbn. now rewrite Hs.
  - apply in_map_iff in H. destruct H as [x [<- Hx]].
    apply filter_In in Hx. destruct Hx as [_ Hs].
    unfold goes_upcoming, status_is in Hs. unfold format. cbn.
    unfold or_else.
    destruct (status x) as [st|]; [|discriminate].
    destruct (String.eqb_spec st ""); [discriminate|].
    destruct (String.eqb_spec st "ongoing"); [discriminate|assumption].
  - apply in_map_iff in H. destruct H as [x [<- Hx]].
    apply filter_In in Hx. destruct Hx as [_ Hs].
    unfold goes_upcoming, status_is in Hs. unfold format. cbn.
    unfold or_else.
    destruct (status x) as [st|]; [|discriminate].
    destruct (String.eqb_spec st ""); [discriminate|].
    destruct (String.eqb_spec st "completed"); [|assumption].
    rewrite andb_false_r in Hs. discriminate.
  - apply in_map_iff in H. destruct H as [x [<- Hx]].
    unfold format. cbn. apply or_else_not_empty. discriminate.
  - destruct H as [H|[H|H]]; apply in_map_iff in H;
      destruct H as [x [<- _]]; apply Hfields.
  - destruct H as [H|[H|H]]; apply in_map_iff in H;
      destruct H as [x [<- _]]; apply Hfields.
  - destruct H as [H|[H|H]]; apply in_map_iff in H;
      destruct H as [x [<- _]]; apply Hfields.
  - destruct H as [H|[H|H]]; apply in_map_iff in H;
      destruct H as [x [<- _]]; apply Hfields.
  - destruct H as [H|[H|H]]; apply in_map_iff in H;
      destruct H as [x [<- _]]; apply Hfields.
Qed.

End MoreBuckets.

Section Dates.

Import Sessions.

(** X19. The categorisation never looks at the date or the time of a
    session: changing the sessions of a list in any way that keeps their
    ids and their statuses, and reading the calendar in any other way,
    leaves the same sessions, in the same order, in each bucket. *)
Theorem categorize_ignores_dates
    (dayOfMonth monthName dayOfMonth' monthName'
       : option string -> string -> string)
    (redate : Session -> Session) (l : list (option Session)) :
  (forall x, _id (redate x) = _id x /\ status (redate x) = status x) ->
  let sorted := categorize dayOfMonth monthName l in
  let redated :=
    categorize dayOfMonth' monthName' (map (option_map redate) l) in
  map f_id (ongoing redated) = map f_id (ongoing sorted) /\
  map f_id (previous redated) = map f_id (previous sorted) /\
  map f_id (upcoming redated) = map f_id (upcoming sorted).
Proof.
  intros Hsame sorted redated. unfold sorted, redated.
  rewrite !categorize_buckets. cbn [ongoing previous upcoming].
  rewrite present_map, !map_map.
  assert (Hst : forall k x, status_is k (redate x) = status_is k x).
  { intros k x. unfold status_is. now rewrite (proj2 (Hsame x)). }
  assert (Hup : forall x, goes_upcoming (redate x) = goes_upcoming x).
  { intros x. unfold goes_upcoming. now rewrite !Hst. }
  rewrite !filter_map_commute by (try apply Hst; apply Hup).
  rewrite !map_map. repeat split; apply map_ext; intros x; cbn;
    apply (proj1 (Hsame x)).
Qed.

End Dates.


(** A session moved to another day keeps its bucket. *)
Lemma categorize_ignores_dates_witness :
  map Sessions.f_id
    (Sessions.upcoming
       (Sessions.categorize (fun _ _ => "31") (fun _ _ => "December")
          (map (option_map
                  (fun x =>
                     Sessions.mkSession (Sessions._id x) (Sessions.title x)
                       (Sessions.description x) (Sessions.sessionHead x)
                       (Some "1999-12-31") (Some "23:59")
                       (Sessions.venue x) (Sessions.status x)))
             [Some (Sessions.mkSession "a" None None None
                      (Some "2030-01-01") None None (Some "upcoming"));
              None]))) =
  map Sessions.f_id
    (Sessions.upcoming
       (Sessions.categorize (fun _ _ => "1") (fun _ _ => "January")
          [Some (Sessions.mkSession "a" None None None
                   (Some "2030-01-01") None None (Some "upcoming"));
           None])).
Proof.
  refine (proj2 (proj2 (@categorize_ignores_dates
    (fun _ _ => "1") (fun _ _ => "January")
    (fun _ _ => "31") (fun _ _ => "December") _ _ _))).
  intros x. split; reflexivity.
Defined.

(** ** The page *)

Section PageState.

Import SessionsPage.

Variables dayOfMonth monthName : option string -> string -> string.

(** An event that sets the error: a fetch that fails, or a confirmed
    deletion or cancellation in which a request fails. *)
Definition fails (ev : Event) : bool :=
  match ev with
  | Fetch (Rejected _) => true
  | Fetch (Resolved _) => false
  | Delete confirmed done refetched
  | Cancel confirmed done refetched =>
      confirmed &&
      match done, refetched with
      | true, Resolved _ => false
      | _, _ => true
      end
  end.

Definition shows_error (st : State) : Prop :=
  exists message, error st = Some message /\ message <> "".

Lemma step_keeps_error (st : State) (ev : Event) :
  shows_error st -> shows_error (step dayOfMonth monthName st ev).
Proof.
  intros [m [Hm Hne]]. unfold shows_error.
  destruct ev as [[data|msg]|[|] [|] [data|msg]|[|] [|] [data|msg]];
    cbn; try (exists m; now split);
    eexists; (split; [reflexivity|]);
    first [apply or_else_not_empty; discriminate | discriminate].
Qed.

Lemma step_sets_error (st : State) (ev : Event) :
  fails ev = true -> shows_error (step dayOfMonth monthName st ev).
Proof.
  unfold shows_error.
  destruct ev as [[data|msg]|[|] [|] [data|msg]|[|] [|] [data|msg]];
    cbn; try discriminate; intros _;
    eexists; (split; [reflexivity|]);
    first [apply or_else_not_empty; discriminate | discriminate].
Qed.

Lemma run_keeps_error (events : list Event) (st : State) :
  shows_error st -> shows_error (run dayOfMonth monthName events st).
Proof.
  revert st. induction events as [|ev events IH]; intros st H;
    [exact H|].
  apply IH. now apply step_keeps_error.
Qed.

Lemma step_keeps_loaded (st : State) (ev : Event) :
  loading st = false -> loading (step dayOfMonth monthName st ev) = false.
Proof.
  intros H.
  destruct ev as [[data|msg]|[|] [|] [data|msg]|[|] [|] [data|msg]];
    cbn; auto.
Qed.

Lemma run_keeps_loaded (events : list Event) (st : State) :
  loading st = false ->
  loading (run dayOfMonth monthName events st) = false.
Proof.
  revert st. induction events as [|ev events IH]; intros st H;
    [exact H|].
  apply IH. now apply step_keeps_loaded.
Qed.

(** X20. Nothing on the page clears an error.  Whatever happened before
    and whatever happens after, once a fetch has failed, or a confirmed
    deletion or cancellation has, the state holds a non-empty error
    message, so that the page, when it is not showing the spinner, shows
    the error page and not the sessions, even after later requests have
    succeeded and refreshed the buckets.  The spinner goes with the
    first fetch, failed or not, and never comes back. *)
Theorem page_error_is_sticky (before after : list Event) (ev : Event)
    (role : option string) :
  fails ev = true ->
  let st := run dayOfMonth monthName (before ++ ev :: after) initial in
  (exists message,
     error st = Some message /\ message <> "" /\
     (loading st = false -> render role st = ErrorPage message)) /\
  ((exists fetched, In (Fetch fetched) (before ++ ev :: after)) ->
   loading st = false).
Proof.
  intros Hfails st. split.
  - assert (H : shows_error st).
    { unfold st, run. rewrite fold_left_app. cbn [fold_left].
      apply run_keeps_error. now apply step_sets_error. }
    destruct H as [m [Hm Hne]]. exists m. repeat split; try assumption.
    intros Hl. unfold render. rewrite Hl, Hm.
    destruct (String.eqb_spec m ""); [contradiction|reflexivity].
  - intros [fetched Hin]. unfold st. clear st Hfails.
    generalize initial.
    induction (before ++ ev :: after)%list as [|e l IH];
      intros st0; [destruct Hin|].
    destruct Hin as [->|Hin].
    + change (run dayOfMonth monthName (Fetch fetched :: l) st0)
        with (run dayOfMonth monthName l
                (fetchSessions dayOfMonth monthName fetched st0)).
      apply run_keeps_loaded. now destruct fetched.
    + change (run dayOfMonth monthName (e :: l) st0)
        with (run dayOfMonth monthName l (step dayOfMonth monthName st0 e)).
      now apply IH.
Qed.

End PageState.

(** The list loads; a deletion fails; a cancellation succeeds. *)
Lemma page_error_is_sticky_witness :
  SessionsPage.render (Some "admin")
    (SessionsPage.run (fun _ _ => "1") (fun _ _ => "January")
       ([SessionsPage.Fetch (SessionsPage.Resolved (Some (Some [])))]
        ++ SessionsPage.Delete true false (SessionsPage.Rejected None)
        :: [SessionsPage.Cancel true true
              (SessionsPage.Resolved (Some (Some [])))])
       SessionsPage.initial) =
  SessionsPage.ErrorPage "Failed to delete session. Please try again later.".
Proof.
  destruct (@page_error_is_sticky (fun _ _ => "1") (fun _ _ => "January")
              [SessionsPage.Fetch (SessionsPage.Resolved (Some (Some [])))]
              [SessionsPage.Cancel true true
                 (SessionsPage.Resolved (Some (Some [])))]
              (SessionsPage.Delete true false (SessionsPage.Rejected None))
              (Some "admin") eq_refl)
    as [[message [Hm [_ Hr]]] _].
  injection Hm as <-. exact (Hr eq_refl).
Defined.

(** ** Records are never deleted *)

Section NeverDeleted.

Variable E : Env.

Lemma googleVerify_effect (profile : Profile.t) (s : Store) :
  fst (googleVerify E profile s) = s \/
  exists email photo,
    fst (googleVerify E profile s) =
      inserted (google_fields profile email photo) s.
Proof.
  unfold googleVerify. all_paths; try (left; reflexivity).
  right. do 2 eexists. reflexivity.
Qed.

(** The ids of [s'] are those of [s], in order, followed by at most one
    new id, the next one of [s]. *)
Definition extends_ids (s s' : Store) : Prop :=
  map User._id (docs s') = map User._id (docs s) \/
  map User._id (docs s') = (map User._id (docs s) ++ [nextOid s])%list.

Lemma saves_one_extends (s s' : Store) : saves_one s s' -> extends_ids s s'.
Proof.
  intros [->|[u [u' [_ [Hid [_ ->]]]]]]; left; [reflexivity|].
  now apply replaced_ids.
Qed.

Lemma inserted_extends (u : User.t) (s : Store) :
  extends_ids s (inserted u s).
Proof. right. unfold inserted. cbn [docs]. now rewrite map_app. Qed.

(** X21. No handler deletes a record or changes an id: after [signup],
    [verifyEmail], [forgotPassword], [resetPassword], [login], [protect]
    and the verify callback of the Google strategy, whatever the input
    and the collaborators do, the store holds the ids it held, in the
    same order, followed by at most one new id. *)
Theorem handlers_never_delete (now : Z) (req : Req.t)
    (profile : Profile.t) (s : Store) :
  extends_ids s (fst (signup E now req s)) /\
  extends_ids s (fst (verifyEmail E now req s)) /\
  extends_ids s (fst (forgotPassword E now req s)) /\
  extends_ids s (fst (resetPassword E now req s)) /\
  extends_ids s (fst (login E now req s)) /\
  extends_ids s (fst (protect E now req s)) /\
  extends_ids s (fst (googleVerify E profile s)).
Proof.
  rewrite login_reads, protect_reads.
  split; [|split; [|split; [|split; [|split; [|split]]]]];
    try (left; reflexivity).
  - destruct (signup_effect E now req s) as [->|[b [_ [_ ->]]]];
      [left; reflexivity|apply inserted_extends].
  - exact (saves_one_extends (verifyEmail_effect E now req s)).
  - exact (saves_one_extends (forgotPassword_effect E now req s)).
  - exact (saves_one_extends (resetPassword_effect E now req s)).
  - destruct (googleVerify_effect profile s) as [->|[email [photo ->]]];
      [left; reflexivity|apply inserted_extends].
Qed.

End NeverDeleted.

(** ** The Authorization header *)

(** The string has a space in it. *)
Fixpoint has_space (s : string) : bool :=
  match s with
  | EmptyString => false
  | String c rest => Ascii.eqb c " "%char || has_space rest
  end.

Lemma split_no_space (s : string) :
  has_space s = false -> split " "%char s = [s].
Proof.
  induction s as [|c rest IH]; simpl; [reflexivity|].
  intros H. apply orb_false_elim in H. destruct H as [Hc Hrest].
  rewrite Hc, (IH Hrest). reflexivity.
Qed.

Lemma split_pieces_no_space (s piece : string) :
  In piece (split " "%char s) -> has_space piece = false.
Proof.
  revert piece. induction s as [|c rest IH]; simpl; intros piece.
  - intros [<-|[]]. reflexivity.
  - destruct (Ascii.eqb c " "%char) eqn:Hc.
    + intros [<-|H]; [reflexivity|now apply IH].
    + destruct (split " "%char rest) as [|h t] eqn:Hs.
      * intros [<-|[]]. simpl. now rewrite Hc.
      * intros [<-|H].
        -- simpl. rewrite Hc. apply IH. now left.
        -- apply IH. now right.
Qed.

Lemma split_not_nil (s : string) : split " "%char s <> [].
Proof.
  destruct s as [|c rest]; simpl; [discriminate|].
  destruct (Ascii.eqb c " "%char); [discriminate|].
  destruct (split " "%char rest); discriminate.
Qed.

Lemma split_first_piece (a b : string) :
  has_space a = false ->
  split " "%char (a ++ String " "%char b) = a :: split " "%char b.
Proof.
  induction a as [|c rest IH]; simpl; [reflexivity|].
  intros H. apply orb_false_elim in H. destruct H as [Hc Hrest].
  rewrite Hc, (IH Hrest). reflexivity.
Qed.

(** X22. What [protect] reads from the header.  A header made of
    "Bearer", one space and a token without spaces gives back exactly
    that token.  Whatever the header, the token read has no space in it
    and the header starts with "Bearer"; after "Bearer" and one space,
    what is read stops at the next space. *)
Theorem bearer_round_trip (token rest : string) (req : Req.t) :
  has_space token = false ->
  (Req.authorization req = Some ("Bearer " ++ token) ->
   bearer req = Some token) /\
  (Req.authorization req = Some ("Bearer " ++ token ++ " " ++ rest) ->
   bearer req = Some token) /\
  (forall read, bearer req = Some read ->
     has_space read = false /\
     exists header,
       Req.authorization req = Some header /\
       startsWith header "Bearer" = true).
Proof.
  intros Hns. split; [|split].
  - intros H. unfold bearer. rewrite H.
    change ("Bearer " ++ token) with ("Bearer" ++ String " "%char token).
    cbn [negb String.eqb Ascii.eqb Bool.eqb andb append startsWith prefix].
    change (String "B" (String "e" (String "a" (String "r" (String "e"
              (String "r" (String " " token)))))))
      with ("Bearer" ++ String " "%char token).
    rewrite split_first_piece by reflexivity.
    rewrite (@split_no_space token Hns). reflexivity.
  - intros H. unfold bearer. rewrite H.
    cbn [negb String.eqb Ascii.eqb Bool.eqb andb append startsWith prefix].
    change (String "B" (String "e" (String "a" (String "r" (String "e"
              (String "r" (String " " (token ++ String " " rest))))))))
      with ("Bearer" ++ String " "%char (token ++ String " "%char rest)).
    rewrite split_first_piece by reflexivity.
    rewrite (@split_first_piece token _ Hns). reflexivity.
  - intros read. unfold bearer.
    destruct (Req.authorization req) as [h|]; [|discriminate].
    destruct (negb (h =? "")%string && startsWith h "Bearer") eqn:Hc;
      [|discriminate].
    apply andb_true_iff in Hc. destruct Hc as [_ Hp].
    intros Hread. split.
    + apply nth_error_In in Hread.
      now apply (split_pieces_no_space h).
    + exists h. now split.
Qed.

Lemma bearer_round_trip_witness :
  bearer (Demo.bearer_request Demo.alice_token) = Some Demo.alice_token.
Proof.
  exact (proj1 (@bearer_round_trip Demo.alice_token ""
                  (Demo.bearer_request Demo.alice_token) eq_refl)
           eq_refl).
Defined.

(** ** A Google callback without an identity *)

Section GoogleWithoutUser.

Variable E : Env.

(** X23. When passport reports neither an error nor an identity (the
    authentication did not succeed and [user] is [false]),
    [googleCallback] still issues a token and redirects to the frontend
    with it.  The token carries no id: on any store, a request that
    presents it before it expires is answered by [protect] with 401 "The
    user belonging to this token no longer exists.".  The secret and the
    lifetime are configured and the lookup completes. *)
Theorem googleCallback_without_user (now ttl : Z) (key : string)
    (s : Store) :
  JWT_SECRET E = Some key -> key <> "" -> JWT_EXPIRE E = Some ttl ->
  db_fault E FindById = None ->
  exists token,
    googleCallback E now None None s =
      (s, Ok (Redirect (FRONTEND_URL E ++ "/auth/success?token=" ++ token)))
    /\
    forall later carrier s',
      later / 1000 < now / 1000 + ttl ->
      bearer carrier = Some token -> token <> "" ->
      protect E later carrier s' = (s', Ok (Sent StaleIdentityError)).
Proof.
  intros Hs Hk Ht Hdb.
  exists (jwt_encode E
            (Payload.mk None (now / 1000) (Some (now / 1000 + ttl)),
             hmac E key (Payload.mk None (now / 1000)
                           (Some (now / 1000 + ttl))))).
  split.
  - unfold googleCallback, bind, lift. cbn [option_map].
    rewrite (signToken_configured E None now Hs Hk Ht). reflexivity.
  - intros later carrier s' Hlater Hcar Hne.
    rewrite (protect_bearer E later carrier s' Hcar Hne).
    rewrite Hs, jwt_verify_signed by assumption.
    destruct (Z.leb_spec (now / 1000 + ttl) (later / 1000)); [lia|].
    now rewrite (User_findById_ok E _ s' Hdb).
Qed.

End GoogleWithoutUser.

Lemma googleCallback_without_user_witness :
  exists token,
    googleCallback Demo.env 5000 None None Demo.store =
      (Demo.store,
       Ok (Redirect ("http://localhost:5173/auth/success?token=" ++ token)))
    /\
    forall later carrier s',
      later / 1000 < 5000 / 1000 + 3600 ->
      bearer carrier = Some token -> token <> "" ->
      protect Demo.env later carrier s' = (s', Ok (Sent StaleIdentityError)).
Proof.
  exact (@googleCallback_without_user Demo.env 5000 3600 "secret"
           Demo.store eq_refl ltac:(discriminate) eq_refl eq_refl).
Defined.
